(** * globalwi: the BACnet Who-Is discovery tool of bcvtb's bacnet-stack

    A shallow embedding of [src-bcvtb/globalwi.c] and the properties of its
    discovery session: the handlers and their registration, the polling loop
    of [main] with its whole-second time accounting, and the final pass that
    compacts the address cache into [device_id_array] and prints it.

    Conventions.
    - [time_t] and the other C integers are [Z]; where the source narrows a
      value the narrowing is written out.  Array indices and the loop
      counters [i], [j], [k], [l] are [nat] (they start at 0 and only count
      up, far below [INT_MAX]).
    - The outside world is an [environment]: what [getenv], [datalink_init],
      [time] and [datalink_receive] answer.  One [tick] is what one loop
      iteration observes.  A finite list of ticks stands for the part of the
      run observed so far; when it is used up the loop is still [Running].
    - Everything the program does to the outside is appended to a trace of
      [effect]s, oldest first.
    - An array is a list of cells; a cell of a local array is [None] until
      it is first assigned.  A store or load outside an array, or a load of
      a cell never assigned, yields [None] (no defined behaviour). *)

From Stdlib Require Import ZArith Bool Lia.
From stdpp Require Import base option list numbers strings.

(** Closed comparisons of integers, by evaluation. *)
Ltac evaluate := vm_compute; first [reflexivity | discriminate].

(** ** Data of the collaborating modules *)

(** [BACNET_ADDRESS] of bacdef.h, as the fields [main] reads. *)
Record BACNET_ADDRESS := mkBACNET_ADDRESS {
  mac_len : Z;
  mac : list Z;
  net : Z;
  len : Z;
  adr : list Z
}.

(** Modelled from the spec: address.c is not under src/.  One entry of the
    address cache (spec section 3, DeviceRecord). *)
Record DeviceRecord := mkDeviceRecord {
  device_id : Z;
  max_apdu_length : Z;
  network_address : BACNET_ADDRESS
}.

(** The three values of the session state machine of spec section 3.  In
    [main] they are the two [break]s of the loop and the loop going on. *)
Inductive SessionState := Running | TimedOut | Aborted.

#[global] Instance SessionState_eq_dec : EqDecision SessionState.
Proof. solve_decision. Defined.

(** Compile-time choice of the data link ([BACDL_BIP], [BACDL_MSTP], or
    another one such as Ethernet). *)
Inductive datalink_kind := BACDL_BIP | BACDL_MSTP | BACDL_NONE_OF_THESE.

(** What the program does to the outside world. *)
Inductive effect :=
| Stderr_APDU_TIMEOUT (text : string)        (* "BACNET_APDU_TIMEOUT=%s" *)
| Stdout_Registering_with_BBMD               (* "WhoIs: Registering with BBMD ..." *)
| Call_bvlc_register_with_bbmd
| Call_Send_WhoIs (low high : Z)
| Call_datalink_receive (timeout : Z)
| Call_bvlc_maintenance_timer (seconds : Z)
| Stderr_BACnet_Abort (abort_reason : Z)     (* "BACnet Abort: %s" *)
| Stderr_BACnet_Reject (reject_reason : Z)   (* "BACnet Reject: %s" *)
| Reply_unrecognized_service
| Reply_read_property
| Stdout_device_id (id : Z).                 (* "%u\n" *)

#[global] Instance effect_eq_dec : EqDecision effect.
Proof. solve_decision. Defined.

(** The decoded content of one received datagram, as [npdu_handler] hands it
    to the registered handlers (spec section 4.2 names the variants). *)
Inductive event :=
| Identification (id : Z) (max_apdu : Z) (src : BACNET_ADDRESS)
| Abort (src : BACNET_ADDRESS) (invoke_id abort_reason : Z) (server : bool)
| Reject (src : BACNET_ADDRESS) (invoke_id reject_reason : Z)
| UnrecognizedService
| ReadPropertyRequest
| OtherEvent.

(** One iteration's observations: the answer of [time(NULL)] and what
    [datalink_receive] delivered ([None] when it returned 0 bytes). *)
Record tick := mkTick {
  now : Z;
  rx : option event
}.

(** The answers of the outside world to one run of the program. *)
Record environment := mkEnvironment {
  BACNET_APDU_TIMEOUT : option (string * Z); (* the text and its [strtol] value *)
  BACNET_BBMD_ADDRESS_resolved : bool;       (* variable set and host found *)
  apdu_timeout_default : Z;                  (* apdu.c's initial timeout, in ms *)
  datalink_init_ok : bool;
  start_seconds : Z;                         (* [time(NULL)] before the loop *)
  ticks : list tick
}.

(** The file's globals together with the state of the modules it drives. *)
Record globals := mkGlobals {
  Error_Detected : bool;
  Address_Cache : list DeviceRecord;
  Timeout_Milliseconds : Z;
  trace : list effect
}.

Definition emit (e : effect) (g : globals) : globals :=
  mkGlobals (Error_Detected g) (Address_Cache g) (Timeout_Milliseconds g)
    (trace g ++ [e]).

Definition set_Error_Detected (b : bool) (g : globals) : globals :=
  mkGlobals b (Address_Cache g) (Timeout_Milliseconds g) (trace g).

Definition set_Address_Cache (c : list DeviceRecord) (g : globals) : globals :=
  mkGlobals (Error_Detected g) c (Timeout_Milliseconds g) (trace g).

Definition Target_Object_Instance_Min : Z := 0.
Definition Target_Object_Instance_Max : Z := 4194303.

(** [static bool Error_Detected = false], an address cache not yet
    initialised (taken empty) and apdu.c's timeout. *)
Definition initial_globals (e : environment) : globals :=
  mkGlobals false [] (apdu_timeout_default e) [].

(** The handler slots of apdu.c that this tool fills; a function pointer is
    the function itself. *)
Record apdu_handlers := mkHandlers {
  Unrecognized_Service_Handler : option (globals → globals);
  Confirmed_Function_READ_PROPERTY : option (globals → globals);
  Unconfirmed_Function_I_AM :
    option (Z → Z → BACNET_ADDRESS → globals → globals);
  Abort_Function : option (BACNET_ADDRESS → Z → Z → bool → globals → globals);
  Reject_Function : option (BACNET_ADDRESS → Z → Z → globals → globals)
}.

Definition no_handlers : apdu_handlers := mkHandlers None None None None None.

Definition apdu_set_unrecognized_service_handler_handler f (t : apdu_handlers) :=
  mkHandlers (Some f) (Confirmed_Function_READ_PROPERTY t)
    (Unconfirmed_Function_I_AM t) (Abort_Function t) (Reject_Function t).
Definition apdu_set_confirmed_handler_READ_PROPERTY f (t : apdu_handlers) :=
  mkHandlers (Unrecognized_Service_Handler t) (Some f)
    (Unconfirmed_Function_I_AM t) (Abort_Function t) (Reject_Function t).
Definition apdu_set_unconfirmed_handler_I_AM f (t : apdu_handlers) :=
  mkHandlers (Unrecognized_Service_Handler t)
    (Confirmed_Function_READ_PROPERTY t) (Some f) (Abort_Function t)
    (Reject_Function t).
Definition apdu_set_abort_handler f (t : apdu_handlers) :=
  mkHandlers (Unrecognized_Service_Handler t)
    (Confirmed_Function_READ_PROPERTY t) (Unconfirmed_Function_I_AM t)
    (Some f) (Reject_Function t).
Definition apdu_set_reject_handler f (t : apdu_handlers) :=
  mkHandlers (Unrecognized_Service_Handler t)
    (Confirmed_Function_READ_PROPERTY t) (Unconfirmed_Function_I_AM t)
    (Abort_Function t) (Some f).

(** ** The handlers of globalwi.c *)

Definition MyAbortHandler (src : BACNET_ADDRESS) (invoke_id abort_reason : Z)
    (server : bool) (g : globals) : globals :=
  set_Error_Detected true (emit (Stderr_BACnet_Abort abort_reason) g).

Definition MyRejectHandler (src : BACNET_ADDRESS) (invoke_id reject_reason : Z)
    (g : globals) : globals :=
  set_Error_Detected true (emit (Stderr_BACnet_Reject reject_reason) g).

(** Modelled from the spec: h_urs.c is not under src/.  Spec section 4.2:
    the event is reported and the fatal-error flag is left alone. *)
Definition handler_unrecognized_service (g : globals) : globals :=
  emit Reply_unrecognized_service g.

(** Modelled from the spec: h_rp.c is not under src/.  The request is
    answered; by spec section 4.2 neither the cache nor the flag changes. *)
Definition handler_read_property (g : globals) : globals :=
  emit Reply_read_property g.

(** Modelled from the spec: apdu.c is not under src/. *)
Definition apdu_timeout_set (milliseconds : Z) (g : globals) : globals :=
  mkGlobals (Error_Detected g) (Address_Cache g) milliseconds (trace g).
Definition apdu_timeout (g : globals) : Z := Timeout_Milliseconds g.

Section Globalwi.

(** Constants of config.h and bacdef.h, and the build's configuration. *)
Variable MAX_ADDRESS_CACHE : nat.
Variable MAX_MAC_LEN : nat.
Variable BACDL : datalink_kind.
Variable BBMD_ENABLED : bool.

Definition BIP_with_BBMD : bool :=
  match BACDL with BACDL_BIP => BBMD_ENABLED | _ => false end.

(** ** The address cache *)

(** Modelled from the spec: address.c is not under src/.  Spec sections 3
    and 4.1: an ordered, capacity-bounded collection with at most one record
    per device id, enumerated in insertion order. *)
Definition address_init (g : globals) : globals := set_Address_Cache [] g.

Definition cache_has (c : list DeviceRecord) (id : Z) : bool :=
  existsb (fun r => (device_id r =? id)%Z) c.

(** Modelled from the spec: [insert_if_absent] of section 4.1; the boolean
    tells whether a record was created. *)
Definition insert_if_absent (c : list DeviceRecord) (id max_apdu : Z)
    (src : BACNET_ADDRESS) : list DeviceRecord * bool :=
  if cache_has c id then (c, false)
  else if length c <? MAX_ADDRESS_CACHE
       then (c ++ [mkDeviceRecord id max_apdu src], true)
       else (c, false).

(** Modelled from the spec: [size] and [enumerate] of section 4.1. *)
Definition size (c : list DeviceRecord) : nat := length c.
Definition enumerate (c : list DeviceRecord) : list Z := map device_id c.

(** Modelled from the spec: address.c is not under src/.  The cache read by
    position, as [main] reads it: the i-th record in insertion order. *)
Definition address_get_by_index (c : list DeviceRecord) (i : nat)
    : option DeviceRecord :=
  if i <? MAX_ADDRESS_CACHE then c !! i else None.

(** Modelled from the spec: h_iam.c is not under src/.  Spec section 4.2:
    an identification only calls [insert_if_absent]. *)
Definition handler_i_am_add (id max_apdu : Z) (src : BACNET_ADDRESS)
    (g : globals) : globals :=
  set_Address_Cache (insert_if_absent (Address_Cache g) id max_apdu src).1 g.

(** ** Handler registration and dispatch *)

Definition Init_Service_Handlers (t : apdu_handlers) : apdu_handlers :=
  let t := apdu_set_unrecognized_service_handler_handler
             handler_unrecognized_service t in
  let t := apdu_set_confirmed_handler_READ_PROPERTY handler_read_property t in
  let t := apdu_set_unconfirmed_handler_I_AM handler_i_am_add t in
  let t := apdu_set_abort_handler MyAbortHandler t in
  apdu_set_reject_handler MyRejectHandler t.

(** Modelled from the spec: npdu.c and apdu.c are not under src/.  Spec
    section 6: a decoded datagram invokes the handler registered for its
    kind; section 4.2: any other kind is ignored. *)
Definition npdu_handler (t : apdu_handlers) (ev : event) (g : globals)
    : globals :=
  match ev with
  | Identification id max_apdu src =>
      match Unconfirmed_Function_I_AM t with
      | Some f => f id max_apdu src g
      | None => g
      end
  | Abort src invoke_id abort_reason server =>
      match Abort_Function t with
      | Some f => f src invoke_id abort_reason server g
      | None => g
      end
  | Reject src invoke_id reject_reason =>
      match Reject_Function t with
      | Some f => f src invoke_id reject_reason g
      | None => g
      end
  | UnrecognizedService =>
      match Unrecognized_Service_Handler t with
      | Some f => f g
      | None => g
      end
  | ReadPropertyRequest =>
      match Confirmed_Function_READ_PROPERTY t with
      | Some f => f g
      | None =>
          match Unrecognized_Service_Handler t with
          | Some f => f g
          | None => g
          end
      end
  | OtherEvent => g
  end.

(** ** Start-up *)

(** [Init_DataLink]: the port, baud-rate and station settings have no part
    in this model.  The boolean is [false] when [exit(1)] was called. *)
Definition Init_DataLink (e : environment) (g : globals) : globals * bool :=
  let g :=
    match BACNET_APDU_TIMEOUT e with
    | Some (text, value) =>
        emit (Stderr_APDU_TIMEOUT text) (apdu_timeout_set value g)
    | None =>
        match BACDL with
        | BACDL_MSTP => apdu_timeout_set 60000 g
        | _ => g
        end
    end in
  if datalink_init_ok e then
    (if BIP_with_BBMD && BACNET_BBMD_ADDRESS_resolved e
     then emit Call_bvlc_register_with_bbmd
            (emit Stdout_Registering_with_BBMD g)
     else g, true)
  else (g, false).

(** ** The polling loop of [main] *)

(** The time-keeping locals of [main] that live across iterations. *)
Record locals := mkLocals {
  total_seconds : Z;
  last_seconds : Z
}.

(** [unsigned timeout = 1], the milliseconds one receive may wait. *)
Definition timeout : Z := 1.

(** One pass through the body of [for (;;)].  The state returned says
    whether the loop goes on ([Running]) or which [break] was taken. *)
Definition loop_body (t : apdu_handlers) (timeout_seconds : Z) (x : tick)
    (g : globals) (l : locals) : globals * locals * SessionState :=
  let current_seconds := now x in
  let g := emit (Call_datalink_receive timeout) g in
  let g := match rx x with
           | Some ev => npdu_handler t ev g
           | None => g
           end in
  if Error_Detected g then (g, l, Aborted)
  else
    let elapsed_seconds := (current_seconds - last_seconds l)%Z in
    let g := if negb (elapsed_seconds =? 0)%Z && BIP_with_BBMD
             then emit (Call_bvlc_maintenance_timer elapsed_seconds) g
             else g in
    let total := (total_seconds l + elapsed_seconds)%Z in
    if (total >? timeout_seconds)%Z
    then (g, mkLocals total (last_seconds l), TimedOut)
    else (g, mkLocals total current_seconds, Running).

Fixpoint main_loop (t : apdu_handlers) (timeout_seconds : Z)
    (xs : list tick) (g : globals) (l : locals)
    : globals * locals * SessionState :=
  match xs with
  | [] => (g, l, Running)
  | x :: xs' =>
      match loop_body t timeout_seconds x g l with
      | (g', l', Running) => main_loop t timeout_seconds xs' g' l'
      | stopped => stopped
      end
  end.

(** ** The final report of [main] *)

(** [for (i = first; i < first + n; i++) body], where the body may leave
    defined behaviour. *)
Fixpoint for_loop {St : Type} (first n : nat) (body : nat → St → option St)
    (s : St) : option St :=
  match n with
  | O => Some s
  | S n' =>
      match body first s with
      | Some s' => for_loop (S first) n' body s'
      | None => None
      end
  end.

Definition store {A : Type} (a : list A) (i : nat) (v : A) : option (list A) :=
  if i <? length a then Some (<[i:=v]> a) else None.

Definition store2 {A : Type} (a : list (list A)) (i j : nat) (v : A)
    : option (list (list A)) :=
  row ← a !! i; row' ← store row j v; Some (<[i:=row']> a).

Definition load (a : list (option Z)) (i : nat) : option Z :=
  match a !! i with
  | Some (Some v) => Some v
  | _ => None
  end.

(** The locals of the reporting part of [main]. *)
Record report_locals := mkReport {
  k : nat;
  mac_length : Z;
  device_id_array : list (option Z);  (* [MAX_ADDRESS_CACHE] *)
  mac_array : list (list (option Z)); (* [MAX_ADDRESS_CACHE][10] *)
  net_array : list (option Z)         (* [MAX_ADDRESS_CACHE] *)
}.

Definition initial_report_locals : report_locals :=
  mkReport 0 0 (replicate MAX_ADDRESS_CACHE None)
    (replicate MAX_ADDRESS_CACHE (replicate 10 None))
    (replicate MAX_ADDRESS_CACHE None).

(** Body of [for (j = 0; j < MAX_MAC_LEN; j++)]. *)
Definition copy_mac (address : BACNET_ADDRESS) (row j : nat)
    (m : list (list (option Z))) : option (list (list (option Z))) :=
  if (Z.of_nat j <? mac_len address)%Z
  then store2 m row j (Some (nth j (mac address) 0%Z))
  else Some m.

(** Body of [for (i = 0; i < MAX_ADDRESS_CACHE; i++)]; [get] is
    [address_get_by_index] on the cache at hand. *)
Definition compact_body (get : nat → option DeviceRecord) (i : nat)
    (r : report_locals) : option report_locals :=
  match get i with
  | Some entry =>
      let address := network_address entry in
      ids ← store (device_id_array r) (k r) (Some (device_id entry));
      nets ← store (net_array r) (k r) (Some (net address `mod` 256)%Z);
      macs ← for_loop 0 MAX_MAC_LEN (copy_mac address (k r)) (mac_array r);
      Some (mkReport (S (k r)) (mac_len address) ids macs nets)
  | None => Some r
  end.

Definition compaction (get : nat → option DeviceRecord)
    : option report_locals :=
  for_loop 0 MAX_ADDRESS_CACHE (compact_body get) initial_report_locals.

(** Body of [for (l = 0; l < k; l++)]. *)
Definition print_body (r : report_locals) (l : nat) (g : globals)
    : option globals :=
  v ← load (device_id_array r) l; Some (emit (Stdout_device_id v) g).

Definition report (get : nat → option DeviceRecord) (g : globals)
    : option globals :=
  r ← compaction get; for_loop 0 (k r) (print_body r) g.

(** ** [main] *)

(** What a run amounts to: the exit status once the process has ended, the
    state of the session once one has begun, and the trace. *)
Record result := mkResult {
  exit_status : option Z;
  session : option SessionState;
  output : list effect
}.

(** [main].  The call [Device_Set_Object_Instance_Number] touches nothing
    that is modelled.  The result is [None] when the report leaves defined
    behaviour. *)
Definition main (e : environment) : option result :=
  let g := initial_globals e in
  let t := Init_Service_Handlers no_handlers in
  let g := address_init g in
  match Init_DataLink e g with
  | (g, false) => Some (mkResult (Some 1%Z) None (trace g))
  | (g, true) =>
      let last := start_seconds e in
      let timeout_seconds := (apdu_timeout g ÷ 1000)%Z in
      let g := emit (Call_Send_WhoIs Target_Object_Instance_Min
                       Target_Object_Instance_Max) g in
      match main_loop t timeout_seconds (ticks e) g (mkLocals 0 last) with
      | (g, _, Running) => Some (mkResult None (Some Running) (trace g))
      | (g, _, stopped) =>
          g' ← report (address_get_by_index (Address_Cache g)) g;
          Some (mkResult (Some 0%Z) (Some stopped) (trace g'))
      end
  end.

(** ** Vocabulary of the statements *)

(** The device-id lines of a trace, in the order printed. *)
Definition printed (tr : list effect) : list Z :=
  omap (fun e => match e with Stdout_device_id v => Some v | _ => None end) tr.

Definition is_receive (e : effect) : bool :=
  match e with Call_datalink_receive _ => true | _ => false end.
Definition is_WhoIs (e : effect) : bool :=
  match e with Call_Send_WhoIs _ _ => true | _ => false end.

(** How often the program received, and how often it broadcast. *)
Definition receives (tr : list effect) : nat := length (filter is_receive tr).
Definition broadcasts (tr : list effect) : nat := length (filter is_WhoIs tr).

(** The fatal kinds of event. *)
Definition fatal (ev : event) : bool :=
  match ev with Abort _ _ _ _ | Reject _ _ _ => true | _ => false end.

Definition tick_fatal (x : tick) : bool :=
  match rx x with Some ev => fatal ev | None => false end.

(** The identifications among the events delivered by a list of ticks. *)
Definition identified (xs : list tick) : list Z :=
  omap (fun x => match rx x with
                 | Some (Identification id _ _) => Some id
                 | _ => None
                 end) xs.

(** The distinct members of a list in the order of their first occurrence,
    read from the left as the events arrive. *)
Fixpoint first_occurrences (seen ids : list Z) : list Z :=
  match ids with
  | [] => []
  | id :: ids' =>
      if bool_decide (id ∈ seen) then first_occurrences seen ids'
      else id :: first_occurrences (seen ++ [id]) ids'
  end.

Definition distinct (ids : list Z) : list Z := first_occurrences [] ids.

(** The handlers as [main] registers them. *)
Definition registered : apdu_handlers := Init_Service_Handlers no_handlers.

(** The event of one tick, and then of every tick in order, applied to the
    globals. *)
Definition handled (x : tick) (g : globals) : globals :=
  match rx x with
  | Some ev => npdu_handler registered ev g
  | None => g
  end.
Definition dispatch_all (xs : list tick) (g : globals) : globals :=
  foldl (fun g x => handled x g) g xs.

(** The timeout that [apdu_timeout] reports after [Init_DataLink]. *)
Definition configured_timeout (e : environment) : Z :=
  match BACNET_APDU_TIMEOUT e with
  | Some (_, value) => value
  | None =>
      match BACDL with
      | BACDL_MSTP => 60000%Z
      | _ => apdu_timeout_default e
      end
  end.

(** A tick is quiet when the loop goes on after it: its event is not fatal
    and its timestamp is within [ts] whole seconds of [start].  Otherwise it
    stops the loop. *)
Definition quiet (ts start : Z) (x : tick) : bool :=
  negb (tick_fatal x) && (now x - start <=? ts)%Z.
Definition stops (ts start : Z) (x : tick) : bool :=
  tick_fatal x || (now x - start >? ts)%Z.

(** The trace grew by [n] receives and by nothing that is a broadcast or a
    device-id line. *)
Definition polled (n : nat) (g g' : globals) : Prop :=
  ∃ extra, trace g' = trace g ++ extra ∧
           printed extra = [] ∧ broadcasts extra = 0 ∧ receives extra = n.

(** A timestamp in milliseconds seen through [time], and a tick taken at
    such a timestamp. *)
Definition seconds_of (ms : Z) : Z := (ms `div` 1000)%Z.
Definition ms_tick (s : Z * option event) : tick :=
  mkTick (seconds_of s.1) s.2.

(** The shape of [mac_array]: [n] rows of 10 cells. *)
Definition mac_shape (n : nat) (m : list (list (option Z))) : Prop :=
  length m = n ∧ Forall (λ row, length row = 10) m.

(** The entries that [get] yields at the indices below [n], in order. *)
Definition valid_entries (get : nat → option DeviceRecord) (n : nat)
    : list DeviceRecord :=
  omap get (seq 0 n).

(** What holds of the locals once the indices below [i] are scanned. *)
Definition compacted (get : nat → option DeviceRecord) (i : nat)
    (r : report_locals) : Prop :=
  k r = length (valid_entries get i) ∧
  length (device_id_array r) = MAX_ADDRESS_CACHE ∧
  length (net_array r) = MAX_ADDRESS_CACHE ∧
  mac_shape MAX_ADDRESS_CACHE (mac_array r) ∧
  take (k r) (device_id_array r) =
    map (λ e, Some (device_id e)) (valid_entries get i).

(** Ticks and environments of sessions that start in second 100. *)
Definition mac6 : BACNET_ADDRESS :=
  mkBACNET_ADDRESS 6 [192; 168; 1; 20; 186; 192]%Z 0 0 [].

Definition idle (t : Z) : tick := mkTick t None.
Definition i_am (t id : Z) : tick :=
  mkTick t (Some (Identification id 1476 mac6)).
Definition abort_at (t : Z) : tick :=
  mkTick t (Some (Abort mac6 1 4 false)).
Definition noise_at (t : Z) : tick := mkTick t (Some UnrecognizedService).

(** A session with apdu.c's timeout of 3000 ms, or with
    [BACNET_APDU_TIMEOUT=500]. *)
Definition session_of (xs : list tick) : environment :=
  mkEnvironment None false 3000 true 100 xs.
Definition short_session_of (xs : list tick) : environment :=
  mkEnvironment (Some ("500"%string, 500%Z)) false 3000 true 100 xs.
Definition no_datalink : environment :=
  mkEnvironment None false 3000 false 100 [].

Definition fresh : globals := mkGlobals false [] 3000 [].

(** 256 devices answering within the first second, then silence. *)
Definition crowd : list tick :=
  map (λ n, i_am 100 (Z.of_nat n)) (seq 0 256) ++ [idle 104].

(** ** Vocabulary of the further properties *)

(** The session state that a check against the absolute deadline
    [start + ts] would give: the first tick with a fatal event aborts, the
    first tick later than the deadline times out, whichever comes first. *)
Fixpoint outcome (ts start : Z) (xs : list tick) : SessionState :=
  match xs with
  | [] => Running
  | x :: xs' =>
      if tick_fatal x then Aborted
      else if (now x - start >? ts)%Z then TimedOut
      else outcome ts start xs'
  end.

(** The same outside world with other ticks. *)
Definition with_ticks (e : environment) (xs : list tick) : environment :=
  mkEnvironment (BACNET_APDU_TIMEOUT e) (BACNET_BBMD_ADDRESS_resolved e)
    (apdu_timeout_default e) (datalink_init_ok e) (start_seconds e) xs.

(** The timestamp of the last tick, or [start] when there is none. *)
Definition last_now (start : Z) (xs : list tick) : Z :=
  match last xs with
  | Some x => now x
  | None => start
  end.

(** The lines "BACnet Abort" and "BACnet Reject" of a trace, counted. *)
Definition is_fatal_line (e : effect) : bool :=
  match e with
  | Stderr_BACnet_Abort _ | Stderr_BACnet_Reject _ => true
  | _ => false
  end.
Definition fatal_lines (tr : list effect) : nat :=
  length (filter is_fatal_line tr).

(** The seconds handed to [bvlc_maintenance_timer] in a trace, added up. *)
Definition maintenance_seconds (tr : list effect) : Z :=
  foldr (λ e sum, match e with
                  | Call_bvlc_maintenance_timer seconds => (seconds + sum)%Z
                  | _ => sum
                  end) 0%Z tr.

(** What the handler registered for the event of a tick writes or sends. *)
Definition handler_lines (x : tick) : list effect :=
  match rx x with
  | Some (Abort _ _ abort_reason _) => [Stderr_BACnet_Abort abort_reason]
  | Some (Reject _ _ reject_reason) => [Stderr_BACnet_Reject reject_reason]
  | Some UnrecognizedService => [Reply_unrecognized_service]
  | Some ReadPropertyRequest => [Reply_read_property]
  | _ => []
  end.

(** What start-up writes and calls before the Who-Is. *)
Definition start_up (e : environment) : list effect :=
  match BACNET_APDU_TIMEOUT e with
  | Some (text, _) => [Stderr_APDU_TIMEOUT text]
  | None => []
  end ++
  (if datalink_init_ok e && (BIP_with_BBMD && BACNET_BBMD_ADDRESS_resolved e)
   then [Stdout_Registering_with_BBMD; Call_bvlc_register_with_bbmd]
   else []).

(** The effects an iteration of the loop can have: a receive that waits
    1 ms, a handler's line or reply, and, in a build with BBMD support, the
    maintenance timer with a number of seconds other than 0. *)
Definition loop_effect (e : effect) : bool :=
  match e with
  | Call_datalink_receive t => (t =? 1)%Z
  | Call_bvlc_maintenance_timer seconds =>
      BIP_with_BBMD && negb (seconds =? 0)%Z
  | Stderr_BACnet_Abort _ | Stderr_BACnet_Reject _
  | Reply_unrecognized_service | Reply_read_property => true
  | _ => false
  end.

(** A tick whose Abort or Reject has lost where it came from and the
    invoke id it names. *)
Definition anonymous : BACNET_ADDRESS := mkBACNET_ADDRESS 0 [] 0 0 [].
Definition forget_origin (x : tick) : tick :=
  mkTick (now x)
    match rx x with
    | Some (Abort _ _ abort_reason _) =>
        Some (Abort anonymous 0 abort_reason false)
    | Some (Reject _ _ reject_reason) =>
        Some (Reject anonymous 0 reject_reason)
    | other => other
    end.

(** A row of [mac_array] once the columns below [j] are copied from an
    address: the octets the address has, as far as they were reached, and
    cells never assigned after them. *)
Definition mac_row (address : BACNET_ADDRESS) (j : nat) : list (option Z) :=
  (λ c, if (c <? j) && (Z.of_nat c <? mac_len address)%Z
        then Some (nth c (mac address) 0%Z) else None) <$> seq 0 10.

(** The locals of the report once the indices below [i] are scanned, cell
    by cell: the entries found fill the arrays from the front, and the
    cells after them were never assigned. *)
Definition filled (get : nat → option DeviceRecord) (i : nat)
    (r : report_locals) : Prop :=
  let found := valid_entries get i in
  let rest := MAX_ADDRESS_CACHE - length found in
  k r = length found ∧
  device_id_array r =
    ((λ e, Some (device_id e)) <$> found) ++ replicate rest None ∧
  net_array r =
    ((λ e, Some (net (network_address e) `mod` 256)%Z) <$> found) ++
    replicate rest None ∧
  mac_array r =
    ((λ e, mac_row (network_address e) MAX_MAC_LEN) <$> found) ++
    replicate rest (replicate 10 None) ∧
  mac_length r =
    match last found with
    | Some e => mac_len (network_address e)
    | None => 0%Z
    end.

(** The BBMD part of [Init_DataLink], which a BACnet/IP build with BBMD
    support runs after [datalink_init]: what its three environment
    variables give, the numbers that [strtol] reads from the first two and
    the address that [bip_getaddrbyname] finds for the third (0 when it
    finds none); the port and the time to live as the code settles them;
    and the arguments of [bvlc_register_with_bbmd], if it is called. *)
Record bbmd_variables := mkBbmdVariables {
  BACNET_BBMD_PORT : option Z;
  BACNET_BBMD_TIMETOLIVE : option Z;
  BACNET_BBMD_ADDRESS : option Z
}.

Definition bbmd_port (v : bbmd_variables) : Z :=
  match BACNET_BBMD_PORT v with
  | Some port => if (port >? 0xFFFF)%Z then 0xBAC0%Z else port
  | None => 0xBAC0%Z
  end.

Definition bbmd_timetolive_seconds (v : bbmd_variables) : Z :=
  match BACNET_BBMD_TIMETOLIVE v with
  | Some seconds => if (seconds >? 0xFFFF)%Z then 0xFFFF%Z else seconds
  | None => 60000%Z
  end.

Definition bbmd_registration (v : bbmd_variables) : option (Z * Z * Z) :=
  match BACNET_BBMD_ADDRESS v with
  | Some bbmd_address =>
      if (bbmd_address =? 0)%Z then None
      else Some (bbmd_address, bbmd_port v, bbmd_timetolive_seconds v)
  | None => None
  end.

(** The lengths of the report's arrays, with [k] not beyond the index
    reached. *)
Definition in_shape (i : nat) (r : report_locals) : Prop :=
  k r ≤ i ∧
  length (device_id_array r) = MAX_ADDRESS_CACHE ∧
  length (net_array r) = MAX_ADDRESS_CACHE ∧
  mac_shape MAX_ADDRESS_CACHE (mac_array r).

(** A cache read by position that has entries at the indices 1 and 4 only,
    one that has a single entry with a MAC address of 11 octets, and BBMD
    variables with a port and a time to live that do not fit 16 bits. *)
Definition mac3 : BACNET_ADDRESS := mkBACNET_ADDRESS 3 [10; 11; 12]%Z 300 0 [].
Definition mac11 : BACNET_ADDRESS :=
  mkBACNET_ADDRESS 11 [1; 2; 3; 4; 5; 6; 7; 8; 9; 10; 11]%Z 0 0 [].
Definition sparse_cache (i : nat) : option DeviceRecord :=
  match i with
  | 1 => Some (mkDeviceRecord 10 1476 mac6)
  | 4 => Some (mkDeviceRecord 20 480 mac3)
  | _ => None
  end.
Definition one_long_mac (i : nat) : option DeviceRecord :=
  match i with
  | 2 => Some (mkDeviceRecord 30 480 mac11)
  | _ => None
  end.
Definition oversized_bbmd : bbmd_variables :=
  mkBbmdVariables (Some 70000%Z) (Some 70000%Z) (Some 3232235777%Z).

(** The differences between each timestamp and the one before it, the
    first against [previous], added up. *)
Fixpoint elapsed_sum (previous : Z) (xs : list tick) : Z :=
  match xs with
  | [] => 0%Z
  | x :: xs' => (now x - previous + elapsed_sum (now x) xs')%Z
  end.

(** ** Traces *)

Lemma printed_app tr1 tr2 : printed (tr1 ++ tr2) = printed tr1 ++ printed tr2.
Proof. apply omap_app. Qed.

Lemma broadcasts_app tr1 tr2 :
  broadcasts (tr1 ++ tr2) = broadcasts tr1 + broadcasts tr2.
Proof. unfold broadcasts. by rewrite filter_app, length_app. Qed.

Lemma receives_app tr1 tr2 : receives (tr1 ++ tr2) = receives tr1 + receives tr2.
Proof. unfold receives. by rewrite filter_app, length_app. Qed.

Lemma printed_device_ids ids : printed (map Stdout_device_id ids) = ids.
Proof.
  unfold printed. induction ids as [|id ids IH]; [done|]. cbn. by rewrite IH.
Qed.

Lemma broadcasts_device_ids ids : broadcasts (map Stdout_device_id ids) = 0.
Proof. by induction ids. Qed.

Lemma receives_device_ids ids : receives (map Stdout_device_id ids) = 0.
Proof. by induction ids. Qed.

Lemma polled_refl g : polled 0 g g.
Proof. exists []. by rewrite app_nil_r. Qed.

Lemma polled_trans n m g1 g2 g3 :
  polled n g1 g2 → polled m g2 g3 → polled (n + m) g1 g3.
Proof.
  intros (tr & Htr & Hp & Hb & Hr) (tr' & Htr' & Hp' & Hb' & Hr').
  exists (tr ++ tr').
  rewrite Htr', Htr, <- app_assoc, printed_app, broadcasts_app, receives_app.
  rewrite Hp, Hp', Hb, Hb', Hr, Hr'. done.
Qed.

Lemma polled_emit e g :
  is_WhoIs e = false →
  (∀ v, e ≠ Stdout_device_id v) →
  polled (if is_receive e then 1 else 0) g (emit e g).
Proof.
  intros Hw Hd. exists [e]. split; [done|].
  split; [|split]; destruct e; try done. by destruct (Hd id).
Qed.

Lemma polled_counts n g g' :
  polled n g g' →
  printed (trace g') = printed (trace g) ∧
  broadcasts (trace g') = broadcasts (trace g) ∧
  receives (trace g') = receives (trace g) + n.
Proof.
  intros (tr & -> & Hp & Hb & Hr).
  rewrite printed_app, broadcasts_app, receives_app, Hp, Hb, Hr, app_nil_r.
  repeat split; lia.
Qed.

(** ** The handlers *)

Lemma registered_handlers :
  registered =
  mkHandlers (Some handler_unrecognized_service) (Some handler_read_property)
    (Some handler_i_am_add) (Some MyAbortHandler) (Some MyRejectHandler).
Proof. reflexivity. Qed.

Lemma npdu_handler_Error_Detected ev g :
  Error_Detected (npdu_handler registered ev g) = Error_Detected g || fatal ev.
Proof. destruct ev; cbn; by rewrite ?orb_true_r, ?orb_false_r. Qed.

Lemma npdu_handler_Address_Cache ev g :
  Address_Cache (npdu_handler registered ev g) =
  match ev with
  | Identification id max_apdu src =>
      (insert_if_absent (Address_Cache g) id max_apdu src).1
  | _ => Address_Cache g
  end.
Proof. by destruct ev. Qed.

Lemma npdu_handler_polled ev g : polled 0 g (npdu_handler registered ev g).
Proof.
  destruct ev as [id m s | s i r sv | s i r | | |]; cbn;
    try apply polled_refl.
  - exists []. by rewrite app_nil_r.
  - apply (polled_emit (Stderr_BACnet_Abort r) g); [done | by intros v].
  - apply (polled_emit (Stderr_BACnet_Reject r) g); [done | by intros v].
  - apply (polled_emit Reply_unrecognized_service g); [done | by intros v].
  - apply (polled_emit Reply_read_property g); [done | by intros v].
Qed.

Lemma handled_Error_Detected x g :
  Error_Detected (handled x g) = Error_Detected g || tick_fatal x.
Proof.
  unfold handled, tick_fatal. destruct (rx x) as [ev|].
  - apply npdu_handler_Error_Detected.
  - by rewrite orb_false_r.
Qed.

Lemma handled_polled x g : polled 0 g (handled x g).
Proof.
  unfold handled. destruct (rx x) as [ev|];
    [apply npdu_handler_polled | apply polled_refl].
Qed.

Lemma handled_Address_Cache x g g0 :
  Address_Cache g = Address_Cache g0 →
  Address_Cache (handled x g) = Address_Cache (handled x g0).
Proof.
  intros Hc. unfold handled. destruct (rx x) as [ev|]; [|done].
  rewrite !npdu_handler_Address_Cache. by rewrite Hc.
Qed.

Lemma dispatch_all_Address_Cache xs g g0 :
  Address_Cache g = Address_Cache g0 →
  Address_Cache (dispatch_all xs g) = Address_Cache (dispatch_all xs g0).
Proof.
  revert g g0. induction xs as [|x xs IH]; intros g g0 Hc; [done|].
  cbn. apply IH. by apply handled_Address_Cache.
Qed.

Lemma dispatch_all_app xs ys g :
  dispatch_all (xs ++ ys) g = dispatch_all ys (dispatch_all xs g).
Proof. apply foldl_app. Qed.

(** ** One iteration of the loop *)

Lemma loop_body_spec ts x g l :
  let total := (total_seconds l + (now x - last_seconds l))%Z in
  ∃ g',
    loop_body registered ts x g l =
      (g',
       if Error_Detected g || tick_fatal x then l
       else mkLocals total
              (if (total >? ts)%Z then last_seconds l else now x),
       if Error_Detected g || tick_fatal x then Aborted
       else if (total >? ts)%Z then TimedOut else Running) ∧
    polled 1 g g' ∧
    Error_Detected g' = Error_Detected g || tick_fatal x ∧
    Address_Cache g' = Address_Cache (handled x g).
Proof.
  intros total. unfold loop_body. cbv zeta.
  set (g0 := emit (Call_datalink_receive timeout) g).
  change (match rx x with
          | Some ev => npdu_handler registered ev g0
          | None => g0
          end) with (handled x g0).
  assert (polled 1 g (handled x g0)) as Hpolled.
  { apply (polled_trans 1 0 g g0); [|apply handled_polled].
    apply (polled_emit (Call_datalink_receive timeout) g); [done | by intros v]. }
  assert (Address_Cache (handled x g0) = Address_Cache (handled x g)) as Hcache
    by (by apply handled_Address_Cache).
  assert (Error_Detected (handled x g0) = Error_Detected g || tick_fatal x) as Hflag
    by exact (handled_Error_Detected x g0).
  rewrite Hflag. destruct (Error_Detected g || tick_fatal x) eqn:Hstop.
  { exists (handled x g0). by rewrite Hflag. }
  fold total.
  set (g1 := if negb (now x - last_seconds l =? 0)%Z && BIP_with_BBMD
             then emit (Call_bvlc_maintenance_timer (now x - last_seconds l))
                    (handled x g0)
             else handled x g0).
  assert (polled 0 (handled x g0) g1 ∧
          Error_Detected g1 = Error_Detected (handled x g0) ∧
          Address_Cache g1 = Address_Cache (handled x g0)) as (Hp1 & He1 & Hc1).
  { unfold g1. destruct (negb _ && _); [|by split; [apply polled_refl|]].
    split; [|done].
    apply (polled_emit (Call_bvlc_maintenance_timer _) (handled x g0));
      [done | by intros v]. }
  exists g1. split; [by destruct (total >? ts)%Z|].
  split; [apply (polled_trans 1 0 g (handled x g0) g1); done|].
  split; congruence.
Qed.

(** ** Runs of the loop *)

Lemma main_loop_quiet ts start pre :
  ∀ g l,
    Error_Detected g = false →
    total_seconds l = (last_seconds l - start)%Z →
    Forall (λ x, quiet ts start x = true) pre →
    ∃ g' l',
      (∀ rest, main_loop registered ts (pre ++ rest) g l =
               main_loop registered ts rest g' l') ∧
      Error_Detected g' = false ∧
      Address_Cache g' = Address_Cache (dispatch_all pre g) ∧
      polled (length pre) g g' ∧
      total_seconds l' = (last_seconds l' - start)%Z.
Proof.
  induction pre as [|x pre IH]; intros g l Hflag Hinv Hquiet.
  { exists g, l. repeat split; try done. apply polled_refl. }
  apply Forall_cons in Hquiet as [Hx Hpre].
  unfold quiet in Hx. apply andb_true_iff in Hx as [Hnf Hin].
  apply negb_true_iff in Hnf. apply Z.leb_le in Hin.
  destruct (loop_body_spec ts x g l) as (g1 & Hbody & Hp1 & He1 & Hc1).
  rewrite Hflag, Hnf in Hbody, He1. cbn in Hbody, He1.
  assert ((total_seconds l + (now x - last_seconds l) >? ts)%Z = false) as Hle.
  { rewrite Z.gtb_ltb. apply Z.ltb_ge. lia. }
  rewrite Hle in Hbody.
  destruct (IH g1 (mkLocals (total_seconds l + (now x - last_seconds l)) (now x)))
    as (g' & l' & Hrun & He' & Hc' & Hp' & Hinv'); [done | cbn; lia | done |].
  exists g', l'. split; [|split; [done|split; [|split; [|done]]]].
  - intros rest. cbn [app main_loop]. rewrite Hbody. apply Hrun.
  - rewrite Hc'. cbn. by apply dispatch_all_Address_Cache.
  - apply (polled_trans 1 (length pre) g g1 g'); done.
Qed.

Lemma main_loop_stops ts start pre x post g l :
  Error_Detected g = false →
  total_seconds l = (last_seconds l - start)%Z →
  Forall (λ x, quiet ts start x = true) pre →
  stops ts start x = true →
  ∃ g' l',
    main_loop registered ts (pre ++ x :: post) g l =
      (g', l', if tick_fatal x then Aborted else TimedOut) ∧
    Error_Detected g' = tick_fatal x ∧
    Address_Cache g' = Address_Cache (dispatch_all (pre ++ [x]) g) ∧
    polled (S (length pre)) g g' ∧
    (tick_fatal x = false → total_seconds l' = (now x - start)%Z).
Proof.
  intros Hflag Hinv Hquiet Hstop.
  destruct (main_loop_quiet ts start pre g l Hflag Hinv Hquiet)
    as (g1 & l1 & Hrun & He1 & Hc1 & Hp1 & Hinv1).
  destruct (loop_body_spec ts x g1 l1) as (g' & Hbody & Hp' & He' & Hc').
  rewrite He1 in Hbody, He'. cbn in Hbody, He'.
  exists g',
    (if tick_fatal x then l1 else mkLocals (now x - start) (last_seconds l1)).
  split; [|split; [done|split; [|split]]].
  - rewrite Hrun. cbn [main_loop]. rewrite Hbody.
    unfold stops in Hstop. destruct (tick_fatal x); [done|].
    cbn in Hstop. replace (total_seconds l1 + (now x - last_seconds l1))%Z
      with (now x - start)%Z by lia.
    rewrite Hstop. done.
  - rewrite Hc', dispatch_all_app. cbn. by apply handled_Address_Cache.
  - replace (S (length pre)) with (length pre + 1) by lia.
    apply (polled_trans _ _ g g1 g'); done.
  - intros Hnf. by rewrite Hnf.
Qed.

Lemma dispatch_all_Error_Detected xs :
  ∀ g, Error_Detected (dispatch_all xs g) =
       Error_Detected g || existsb tick_fatal xs.
Proof.
  induction xs as [|x xs IH]; intros g.
  - cbn. by rewrite orb_false_r.
  - change (dispatch_all (x :: xs) g) with (dispatch_all xs (handled x g)).
    rewrite IH, handled_Error_Detected. cbn [existsb]. by rewrite orb_assoc.
Qed.

(** Whatever arrives, the loop only polls, and on leaving it the globals
    are those that the events of the iterations run have made. *)
Lemma main_loop_steps ts xs :
  ∀ g l g' l' s,
    main_loop registered ts xs g l = (g', l', s) →
    ∃ n, n ≤ length xs ∧ polled n g g' ∧
         Error_Detected g' = Error_Detected (dispatch_all (take n xs) g) ∧
         Address_Cache g' = Address_Cache (dispatch_all (take n xs) g) ∧
         (s = Aborted → Error_Detected g' = true) ∧
         (s = Running → n = length xs).
Proof.
  induction xs as [|x xs IH]; intros g l g' l' s Hrun.
  { cbn in Hrun. injection Hrun as <- <- <-. exists 0.
    repeat split; try done. apply polled_refl. }
  cbn [main_loop] in Hrun.
  destruct (loop_body_spec ts x g l) as (g1 & Hbody & Hp1 & He1 & Hc1).
  rewrite Hbody in Hrun.
  assert (Error_Detected g1 = Error_Detected (dispatch_all (take 1 (x :: xs)) g))
    as He1' by (by rewrite He1, <- handled_Error_Detected).
  destruct (Error_Detected g || tick_fatal x) eqn:Hstop.
  { injection Hrun as <- <- <-. exists 1. repeat split; try done. cbn; lia. }
  destruct (_ >? ts)%Z.
  { injection Hrun as <- <- <-. exists 1. repeat split; try done. cbn; lia. }
  apply IH in Hrun as (n & Hn & Hp & He & Hc & Hab & Hrunning).
  exists (S n). change (take (S n) (x :: xs)) with (x :: take n xs).
  change (dispatch_all (x :: take n xs) g)
    with (dispatch_all (take n xs) (handled x g)).
  cbn [length]. split; [lia|]. split; [by apply (polled_trans 1 n g g1 g')|].
  split; [|split; [|split; [done | intros ?; f_equal; auto]]].
  - rewrite He, !dispatch_all_Error_Detected, He1, handled_Error_Detected.
    by rewrite Hstop.
  - rewrite Hc. by apply dispatch_all_Address_Cache.
Qed.

(** A loop that has stopped pays no heed to what would have come next. *)
Lemma main_loop_stopped ts xs :
  ∀ g l g' l' s post,
    main_loop registered ts xs g l = (g', l', s) →
    s ≠ Running →
    main_loop registered ts (xs ++ post) g l = (g', l', s).
Proof.
  induction xs as [|x xs IH]; intros g l g' l' s post Hrun Hs.
  { cbn in Hrun. injection Hrun as <- <- <-. done. }
  cbn [app main_loop] in *.
  destruct (loop_body registered ts x g l) as [[g1 l1] [| |]]; try done.
  by apply IH.
Qed.

Lemma main_loop_app ts xs ys g l g1 l1 :
  main_loop registered ts xs g l = (g1, l1, Running) →
  main_loop registered ts (xs ++ ys) g l = main_loop registered ts ys g1 l1.
Proof.
  revert g l. induction xs as [|x xs IH]; intros g l Hrun.
  { cbn in Hrun. by injection Hrun as <- <-. }
  cbn [app main_loop] in *.
  destruct (loop_body registered ts x g l) as [[g2 l2] [| |]]; try done.
  by apply IH.
Qed.

(** The running total is the whole-second distance of the last timestamp
    from the first; a time-out comes with a tick at which it exceeds the
    budget. *)
Lemma main_loop_total ts start xs :
  ∀ g l g' l' s,
    main_loop registered ts xs g l = (g', l', s) →
    total_seconds l = (last_seconds l - start)%Z →
    (s = TimedOut →
       ∃ pre x post, xs = pre ++ x :: post ∧
                     total_seconds l' = (now x - start)%Z ∧
                     (ts < now x - start)%Z) ∧
    (last_seconds l = start →
     Forall (λ x, now x = start) xs → total_seconds l' = total_seconds l) ∧
    (s = Running → total_seconds l' = (last_seconds l' - start)%Z).
Proof.
  induction xs as [|x xs IH]; intros g l g' l' s Hrun Hinv.
  { cbn in Hrun. injection Hrun as <- <- <-. done. }
  cbn [main_loop] in Hrun.
  destruct (loop_body_spec ts x g l) as (g1 & Hbody & _).
  rewrite Hbody in Hrun. clear Hbody.
  destruct (Error_Detected g || tick_fatal x).
  { injection Hrun as <- <- <-. done. }
  destruct (_ >? ts)%Z eqn:Hgt.
  { injection Hrun as <- <- <-. cbn.
    rewrite Z.gtb_ltb in Hgt. apply Z.ltb_lt in Hgt.
    split; [|split; [|done]].
    - intros _. exists [], x, xs. split; [done|]. lia.
    - intros Hlast [Hx _]%Forall_cons. lia. }
  apply IH in Hrun as (Hout & Hsame & Hrunning); [|cbn; lia].
  split; [|split; [|done]].
  - intros Hs. destruct (Hout Hs) as (pre & y & post & -> & Htot & Hlt).
    by exists (x :: pre), y, post.
  - intros Hlast [Hx Hxs]%Forall_cons. cbn in Hsame.
    rewrite Hsame; [lia | done | done].
Qed.

Lemma main_loop_last ts xs :
  ∀ g l g' l',
    main_loop registered ts xs g l = (g', l', Running) →
    last_seconds l' = last_now (last_seconds l) xs.
Proof.
  induction xs as [|x xs IH]; intros g l g' l' Hrun.
  { cbn in Hrun. by injection Hrun as <- <-. }
  cbn [main_loop] in Hrun.
  destruct (loop_body_spec ts x g l) as (g1 & Hbody & _).
  rewrite Hbody in Hrun. clear Hbody.
  destruct (Error_Detected g || tick_fatal x); [done|].
  destruct (_ >? ts)%Z; [done|].
  rewrite (IH _ _ _ _ Hrun). unfold last_now. cbn [last_seconds].
  rewrite last_cons. by destruct (last xs).
Qed.

Lemma elapsed_sum_telescopes xs :
  ∀ previous,
    elapsed_sum previous xs = (last_now previous xs - previous)%Z.
Proof.
  induction xs as [|x xs IH]; intros previous.
  { unfold last_now. cbn. lia. }
  cbn [elapsed_sum]. rewrite IH. unfold last_now. rewrite last_cons.
  destruct (last xs); lia.
Qed.

(** ** Counted loops *)

(** An invariant that every iteration of a counted loop re-establishes holds
    when the loop ends, and the loop does end within defined behaviour. *)
Lemma for_loop_inv {St : Type} (P : nat → St → Prop)
    (body : nat → St → option St) n :
  ∀ first s,
    P first s →
    (∀ i s, first ≤ i < first + n → P i s →
            ∃ s', body i s = Some s' ∧ P (S i) s') →
    ∃ s', for_loop first n body s = Some s' ∧ P (first + n) s'.
Proof.
  induction n as [|n IH]; intros first s Hs Hstep.
  { exists s. by rewrite Nat.add_0_r. }
  destruct (Hstep first s) as (s1 & Hbody & Hs1); [lia | done |].
  destruct (IH (S first) s1) as (s' & Hloop & Hs'); [done | |].
  { intros i s2 Hi. apply Hstep. lia. }
  exists s'. cbn. rewrite Hbody. split; [done|].
  by replace (first + S n) with (S first + n) by lia.
Qed.

Lemma store_Some {A : Type} (a : list A) i v :
  i < length a → store a i v = Some (<[i:=v]> a).
Proof.
  intros Hi. unfold store.
  by destruct (Nat.ltb_spec i (length a)); [|lia].
Qed.

(** ** The final report *)

Lemma copy_mac_loop address row m :
  MAX_MAC_LEN ≤ 10 →
  row < MAX_ADDRESS_CACHE →
  mac_shape MAX_ADDRESS_CACHE m →
  ∃ m', for_loop 0 MAX_MAC_LEN (copy_mac address row) m = Some m' ∧
        mac_shape MAX_ADDRESS_CACHE m'.
Proof.
  intros Hfits Hrow Hm.
  apply (for_loop_inv (λ _ m, mac_shape MAX_ADDRESS_CACHE m)); [done|].
  intros j m1 Hj [Hlen Hrows]. unfold copy_mac.
  destruct (_ <? _)%Z; [|by exists m1].
  unfold store2.
  destruct (lookup_lt_is_Some_2 m1 row) as [cells Hcells]; [lia|].
  rewrite Hcells. cbn.
  assert (length cells = 10) as Hcells_len.
  { eapply (Forall_lookup_1 _ _ _ _ Hrows Hcells). }
  rewrite store_Some by lia. cbn. eexists. split; [done|].
  split; [by rewrite length_insert|].
  apply Forall_insert; [done|]. by rewrite length_insert.
Qed.

Lemma valid_entries_S get n :
  valid_entries get (S n) =
  valid_entries get n ++ match get n with Some e => [e] | None => [] end.
Proof.
  unfold valid_entries. rewrite seq_S, omap_app. cbn.
  by destruct (get n).
Qed.

Lemma valid_entries_length get n : length (valid_entries get n) ≤ n.
Proof.
  induction n as [|n IH]; [done|].
  rewrite valid_entries_S, length_app. destruct (get n); cbn; lia.
Qed.

Lemma compacted_initial get : compacted get 0 initial_report_locals.
Proof.
  unfold compacted, mac_shape. cbn. rewrite !length_replicate.
  repeat split; try done. by apply Forall_replicate.
Qed.

Lemma compact_body_spec get i r :
  MAX_MAC_LEN ≤ 10 →
  i < MAX_ADDRESS_CACHE →
  compacted get i r →
  ∃ r', compact_body get i r = Some r' ∧ compacted get (S i) r' ∧
        k r' = k r + match get i with Some _ => 1 | None => 0 end.
Proof.
  intros Hfits Hi (Hk & Hids & Hnets & Hmacs & Hprefix).
  pose proof (valid_entries_length get i) as Hle.
  pose proof Hmacs as [Hrows Hcells].
  unfold compact_body, compacted. rewrite valid_entries_S.
  destruct (get i) as [entry|].
  2:{ exists r. rewrite app_nil_r. repeat split; done. }
  rewrite !store_Some by lia. cbn.
  destruct (copy_mac_loop (network_address entry) (k r) (mac_array r))
    as (macs & -> & Hmacs'); [done | lia | done |].
  destruct Hmacs' as [Hrows' Hcells'].
  cbn. eexists. split; [done|]. cbn.
  rewrite !length_insert, length_app, map_app. cbn.
  split; [|lia].
  repeat split; try done; try lia.
  rewrite (take_S_r _ _ (Some (device_id entry)))
    by (apply list_lookup_insert_eq; lia).
  rewrite take_insert_ge by lia. by rewrite Hprefix.
Qed.

(** The compaction of the first [n] slots stays within the arrays. *)
Lemma compaction_prefix get n :
  MAX_MAC_LEN ≤ 10 →
  n ≤ MAX_ADDRESS_CACHE →
  ∃ r, for_loop 0 n (compact_body get) initial_report_locals = Some r ∧
       compacted get n r.
Proof.
  intros Hfits Hn.
  apply (for_loop_inv (compacted get)); [apply compacted_initial|].
  intros i r Hi Hr.
  destruct (compact_body_spec get i r) as (r' & ? & ? & _); [done | lia | done |].
  by exists r'.
Qed.

Lemma print_loop r ids g :
  take (k r) (device_id_array r) = map Some ids →
  k r = length ids →
  ∃ g', for_loop 0 (k r) (print_body r) g = Some g' ∧
        trace g' = trace g ++ map Stdout_device_id ids.
Proof.
  intros Hprefix Hk.
  destruct (for_loop_inv
              (λ l g', trace g' = trace g ++ map Stdout_device_id (take l ids))
              (print_body r) (k r) 0 g) as (g' & Hloop & Hg').
  { cbn. by rewrite app_nil_r. }
  { intros l g1 Hl Hg1. unfold print_body, load.
    destruct (lookup_lt_is_Some_2 ids l) as [id Hid]; [lia|].
    assert (device_id_array r !! l = Some (Some id)) as ->.
    { rewrite <- (lookup_take_lt _ (k r)) by lia.
      rewrite Hprefix. by rewrite list_lookup_fmap, Hid. }
    cbn. eexists. split; [done|]. cbn.
    rewrite Hg1, (take_S_r _ _ id Hid), map_app, app_assoc. done. }
  exists g'. split; [done|].
  rewrite Hg'. cbn. by rewrite take_ge by lia.
Qed.

Lemma report_spec get g :
  MAX_MAC_LEN ≤ 10 →
  ∃ g', report get g = Some g' ∧
        trace g' = trace g ++
          map Stdout_device_id
            (map device_id (valid_entries get MAX_ADDRESS_CACHE)).
Proof.
  intros Hfits.
  destruct (compaction_prefix get MAX_ADDRESS_CACHE)
    as (r & Hr & Hk & _ & _ & _ & Hprefix); [done | done |].
  unfold report, compaction. rewrite Hr. cbn.
  apply print_loop.
  - rewrite Hprefix. by rewrite map_map.
  - by rewrite length_map.
Qed.

(** ** The address cache *)

Lemma cache_has_spec c id : cache_has c id = true ↔ id ∈ enumerate c.
Proof.
  unfold cache_has, enumerate. induction c as [|r c IH]; cbn.
  - split; [done|]. by intros ?%elem_of_nil.
  - rewrite orb_true_iff, IH, elem_of_cons, Z.eqb_eq.
    split; (intros [Hr|Hc]; [left; by symmetry | by right]).
Qed.

Lemma insert_if_absent_length c id max_apdu src :
  length c ≤ MAX_ADDRESS_CACHE →
  length (insert_if_absent c id max_apdu src).1 ≤ MAX_ADDRESS_CACHE.
Proof.
  intros Hc. unfold insert_if_absent.
  destruct (cache_has c id); [done|].
  destruct (Nat.ltb_spec (length c) MAX_ADDRESS_CACHE); cbn; [|done].
  rewrite length_app. cbn. lia.
Qed.

Lemma handled_cache_length x g :
  length (Address_Cache g) ≤ MAX_ADDRESS_CACHE →
  length (Address_Cache (handled x g)) ≤ MAX_ADDRESS_CACHE.
Proof.
  intros Hc. unfold handled. destruct (rx x) as [ev|]; [|done].
  rewrite npdu_handler_Address_Cache.
  destruct ev; try done. by apply insert_if_absent_length.
Qed.

Lemma dispatch_all_cache_length xs :
  ∀ g, length (Address_Cache g) ≤ MAX_ADDRESS_CACHE →
       length (Address_Cache (dispatch_all xs g)) ≤ MAX_ADDRESS_CACHE.
Proof.
  induction xs as [|x xs IH]; intros g Hc; [done|].
  cbn. by apply IH, handled_cache_length.
Qed.

(** Reading a cache by position finds its records, in order. *)
Lemma lookup_entries (c1 c2 : list DeviceRecord) :
  omap (λ i, (c1 ++ c2) !! i) (seq (length c1) (length c2)) = c2.
Proof.
  revert c1. induction c2 as [|r c2 IH]; intros c1; [done|].
  cbn. rewrite lookup_app_r, Nat.sub_diag by lia. cbn. f_equal.
  specialize (IH (c1 ++ [r])).
  rewrite <- app_assoc, length_app, Nat.add_1_r in IH. exact IH.
Qed.

Lemma omap_agree {A B : Type} (f h : A → option B) (l : list A) :
  (∀ x, x ∈ l → f x = h x) → omap f l = omap h l.
Proof.
  induction l as [|x l IH]; intros Hfh; [done|].
  cbn. rewrite (Hfh x) by apply list_elem_of_here.
  rewrite IH; [done|]. intros y Hy. by apply Hfh, list_elem_of_further.
Qed.

Lemma valid_entries_cache c :
  length c ≤ MAX_ADDRESS_CACHE →
  valid_entries (address_get_by_index c) MAX_ADDRESS_CACHE = c.
Proof.
  intros Hc. unfold valid_entries.
  replace MAX_ADDRESS_CACHE
    with (length c + (MAX_ADDRESS_CACHE - length c)) by lia.
  rewrite seq_app, omap_app.
  rewrite (omap_agree _ (λ i, c !! i) (seq 0 (length c))).
  2:{ intros i [_ Hi]%elem_of_seq. unfold address_get_by_index.
      by destruct (Nat.ltb_spec i MAX_ADDRESS_CACHE); [|lia]. }
  pose proof (lookup_entries [] c) as Hread. cbn in Hread. rewrite Hread.
  rewrite (omap_agree _ (λ _, None)).
  2:{ intros i [Hi _]%elem_of_seq. unfold address_get_by_index.
      destruct (_ <? _); [|done]. apply lookup_ge_None. lia. }
  assert (∀ l : list nat, omap (λ _, @None DeviceRecord) l = []) as ->
    by (by induction l).
  apply app_nil_r.
Qed.

(** ** First occurrences *)

Lemma first_occurrences_ext ids :
  ∀ seen seen', (∀ x, x ∈ seen ↔ x ∈ seen') →
                first_occurrences seen ids = first_occurrences seen' ids.
Proof.
  induction ids as [|id ids IH]; intros seen seen' Hsame; [done|].
  cbn. rewrite (bool_decide_ext _ _ (Hsame id)).
  destruct (bool_decide _); [by apply IH|].
  f_equal. apply IH. intros x. rewrite !elem_of_app, (Hsame x). tauto.
Qed.

Lemma first_occurrences_elem ids :
  ∀ seen x, x ∈ first_occurrences seen ids ↔ x ∈ ids ∧ x ∉ seen.
Proof.
  induction ids as [|id ids IH]; intros seen x; cbn.
  { split; [by intros ?%elem_of_nil | by intros [?%elem_of_nil _]]. }
  case_bool_decide as Hid.
  - rewrite IH, elem_of_cons. intuition congruence.
  - rewrite !elem_of_cons, IH, elem_of_app, list_elem_of_singleton.
    destruct (decide (x = id)) as [->|]; tauto.
Qed.

Lemma first_occurrences_NoDup ids :
  ∀ seen, NoDup (first_occurrences seen ids).
Proof.
  induction ids as [|id ids IH]; intros seen; cbn; [constructor|].
  case_bool_decide; [apply IH|].
  constructor; [|apply IH].
  rewrite first_occurrences_elem, elem_of_app, list_elem_of_singleton.
  tauto.
Qed.

Lemma first_occurrences_snoc ids :
  ∀ seen x,
    first_occurrences seen (ids ++ [x]) =
    first_occurrences seen ids ++
      (if bool_decide (x ∈ seen ++ ids) then [] else [x]).
Proof.
  induction ids as [|id ids IH]; intros seen x; cbn.
  { rewrite app_nil_r. by destruct (bool_decide _). }
  case_bool_decide as Hid.
  - rewrite IH. f_equal. apply (f_equal (λ b : bool, if b then [] else [x])).
    apply bool_decide_ext. rewrite !elem_of_app, elem_of_cons.
    intuition congruence.
  - rewrite IH. cbn. by rewrite <- app_assoc.
Qed.

Lemma identified_cons x xs :
  identified (x :: xs) =
  match rx x with
  | Some (Identification id _ _) => id :: identified xs
  | _ => identified xs
  end.
Proof. unfold identified. cbn. by destruct (rx x) as [[]|]. Qed.

Lemma identified_app xs ys : identified (xs ++ ys) = identified xs ++ identified ys.
Proof. apply omap_app. Qed.

Lemma first_occurrences_fresh ids :
  ∀ seen, NoDup ids → (∀ x, x ∈ ids → x ∉ seen) →
          first_occurrences seen ids = ids.
Proof.
  induction ids as [|id ids IH]; intros seen Hnodup Hfresh; [done|].
  apply NoDup_cons in Hnodup as [Hid Hnodup]. cbn.
  rewrite bool_decide_eq_false_2 by (apply Hfresh; apply list_elem_of_here).
  f_equal. apply IH; [done|].
  intros x Hx. rewrite elem_of_app, list_elem_of_singleton.
  intros [Hseen | ->]; [|done].
  by apply (Hfresh x); [apply list_elem_of_further|].
Qed.

(** The cache holds the first [MAX_ADDRESS_CACHE] distinct device ids, in
    the order in which each first arrived. *)
Lemma cache_after xs :
  ∀ g,
    length (Address_Cache g) ≤ MAX_ADDRESS_CACHE →
    enumerate (Address_Cache (dispatch_all xs g)) =
    take MAX_ADDRESS_CACHE
      (enumerate (Address_Cache g) ++
       first_occurrences (enumerate (Address_Cache g)) (identified xs)).
Proof.
  induction xs as [|x xs IH]; intros g Hc.
  { cbn. rewrite app_nil_r, take_ge; [done|].
    unfold enumerate. by rewrite length_map. }
  change (dispatch_all (x :: xs) g) with (dispatch_all xs (handled x g)).
  rewrite (IH _ (handled_cache_length x g Hc)), identified_cons.
  unfold handled. destruct (rx x) as [[id m src| | | | |]|]; try done.
  rewrite npdu_handler_Address_Cache. unfold insert_if_absent.
  cbn [first_occurrences].
  destruct (cache_has (Address_Cache g) id) eqn:Hhas.
  { apply cache_has_spec in Hhas. by rewrite (bool_decide_eq_true_2 _ Hhas). }
  assert (id ∉ enumerate (Address_Cache g)) as Hnew.
  { intros Hin%cache_has_spec. congruence. }
  rewrite (bool_decide_eq_false_2 _ Hnew).
  destruct (Nat.ltb_spec (length (Address_Cache g)) MAX_ADDRESS_CACHE);
    cbn [fst].
  - unfold enumerate. rewrite map_app. cbn. by rewrite <- app_assoc.
  - rewrite !take_app_le; [done| |];
      unfold enumerate; rewrite length_map; lia.
Qed.

(** ** Start-up and the whole of [main] *)

Lemma Init_DataLink_spec e g :
  Timeout_Milliseconds g = apdu_timeout_default e →
  ∃ g0, Init_DataLink e g = (g0, datalink_init_ok e) ∧
        polled 0 g g0 ∧
        Error_Detected g0 = Error_Detected g ∧
        Address_Cache g0 = Address_Cache g ∧
        apdu_timeout g0 = configured_timeout e.
Proof.
  intros Hdefault. unfold Init_DataLink, configured_timeout.
  set (g1 := match BACNET_APDU_TIMEOUT e with
             | Some (text, value) =>
                 emit (Stderr_APDU_TIMEOUT text) (apdu_timeout_set value g)
             | None => match BACDL with
                       | BACDL_MSTP => apdu_timeout_set 60000 g
                       | _ => g
                       end
             end).
  assert (polled 0 g g1 ∧ Error_Detected g1 = Error_Detected g ∧
          Address_Cache g1 = Address_Cache g ∧
          apdu_timeout g1 =
            match BACNET_APDU_TIMEOUT e with
            | Some (_, value) => value
            | None => match BACDL with
                      | BACDL_MSTP => 60000%Z
                      | _ => apdu_timeout_default e
                      end
            end) as (Hp1 & He1 & Hc1 & Ht1).
  { unfold g1. destruct (BACNET_APDU_TIMEOUT e) as [[text value]|].
    - split; [|done].
      apply (polled_emit (Stderr_APDU_TIMEOUT text) (apdu_timeout_set value g));
        [done | by intros v].
    - destruct BACDL;
        (split; [exists []; cbn; by rewrite app_nil_r | done]). }
  destruct (datalink_init_ok e); [|by exists g1].
  destruct (BIP_with_BBMD && BACNET_BBMD_ADDRESS_resolved e); [|by exists g1].
  eexists. split; [done|]. split; [|done].
  apply (polled_trans 0 0 g g1); [done|].
  apply (polled_trans 0 0 g1 (emit Stdout_Registering_with_BBMD g1)).
  - apply (polled_emit Stdout_Registering_with_BBMD g1); [done | by intros v].
  - apply (polled_emit Call_bvlc_register_with_bbmd
             (emit Stdout_Registering_with_BBMD g1)); [done | by intros v].
Qed.

(** The globals with which [main] enters the loop when the data link is up,
    and what [main] makes of the loop's outcome. *)
Lemma main_started e :
  MAX_MAC_LEN ≤ 10 →
  datalink_init_ok e = true →
  ∃ before g0,
    trace g0 =
      before ++ [Call_Send_WhoIs Target_Object_Instance_Min
                   Target_Object_Instance_Max] ∧
    printed before = [] ∧ broadcasts before = 0 ∧ receives before = 0 ∧
    Error_Detected g0 = false ∧
    Address_Cache g0 = [] ∧
    ∀ g1 l1 s,
      main_loop registered (configured_timeout e ÷ 1000) (ticks e) g0
        (mkLocals 0 (start_seconds e)) = (g1, l1, s) →
      main e =
        Some (match s with
              | Running => mkResult None (Some Running) (trace g1)
              | _ =>
                  mkResult (Some 0%Z) (Some s)
                    (trace g1 ++
                     map Stdout_device_id
                       (enumerate
                          (valid_entries
                             (address_get_by_index (Address_Cache g1))
                             MAX_ADDRESS_CACHE)))
              end).
Proof.
  intros Hfits Hinit.
  destruct (Init_DataLink_spec e (address_init (initial_globals e)))
    as (g & Hg & Hpolled & He & Hc & Ht); [done|].
  apply polled_counts in Hpolled as (Hp & Hb & Hr).
  rewrite Hinit in Hg. cbn in Hp, Hb, Hr, He, Hc.
  exists (trace g),
    (emit (Call_Send_WhoIs Target_Object_Instance_Min
             Target_Object_Instance_Max) g).
  repeat split; try done.
  intros g1 l1 s Hloop. unfold main. rewrite Hg. cbv zeta.
  rewrite Ht. fold registered. rewrite Hloop.
  destruct (report_spec (address_get_by_index (Address_Cache g1)) g1 Hfits)
    as (g' & Hreport & Htrace).
  destruct s; [done | |]; rewrite Hreport; cbn; by rewrite Htrace.
Qed.

(** The run that meets only quiet ticks and then one that stops the loop. *)
Lemma main_stops e pre x post :
  MAX_MAC_LEN ≤ 10 →
  datalink_init_ok e = true →
  ticks e = pre ++ x :: post →
  Forall (λ x, quiet (configured_timeout e ÷ 1000) (start_seconds e) x = true)
    pre →
  stops (configured_timeout e ÷ 1000) (start_seconds e) x = true →
  ∃ tr,
    main e =
      Some (mkResult (Some 0%Z)
              (Some (if tick_fatal x then Aborted else TimedOut))
              (tr ++
               map Stdout_device_id
                 (enumerate
                    (Address_Cache
                       (dispatch_all (pre ++ [x]) (initial_globals e)))))) ∧
    printed tr = [] ∧ broadcasts tr = 1 ∧ receives tr = S (length pre).
Proof.
  intros Hfits Hinit Hticks Hquiet Hstop.
  destruct (main_started e Hfits Hinit)
    as (before & g0 & Htr0 & Hp0 & Hb0 & Hr0 & He0 & Hc0 & Hmain).
  destruct (main_loop_stops (configured_timeout e ÷ 1000) (start_seconds e)
              pre x post g0 (mkLocals 0 (start_seconds e)))
    as (g1 & l1 & Hloop & He1 & Hc1 & Hpolled & _);
    [done | cbn; lia | done | done |].
  apply polled_counts in Hpolled as (Hp1 & Hb1 & Hr1).
  rewrite <- Hticks in Hloop. specialize (Hmain _ _ _ Hloop).
  assert (Address_Cache g1 =
          Address_Cache (dispatch_all (pre ++ [x]) (initial_globals e))) as Hc.
  { rewrite Hc1. by apply dispatch_all_Address_Cache. }
  assert (length (Address_Cache g1) ≤ MAX_ADDRESS_CACHE) as Hlen.
  { rewrite Hc. apply dispatch_all_cache_length. cbn. lia. }
  rewrite valid_entries_cache, Hc in Hmain by done.
  exists (trace g1). split; [by destruct (tick_fatal x)|].
  rewrite Hp1, Hb1, Hr1, Htr0, printed_app, broadcasts_app, receives_app.
  rewrite Hp0, Hb0, Hr0.
  change (printed [Call_Send_WhoIs _ _]) with (@nil Z).
  change (broadcasts [Call_Send_WhoIs _ _]) with 1.
  change (receives [Call_Send_WhoIs _ _]) with 0.
  repeat split; lia.
Qed.

(** Any run with the data link up: the trace is what start-up wrote, the
    one broadcast, what [n] iterations of the loop did, and, once the loop
    has stopped, the report of the cache as those iterations left it. *)
Lemma main_run e :
  MAX_MAC_LEN ≤ 10 →
  datalink_init_ok e = true →
  ∃ before polls s n,
    n ≤ length (ticks e) ∧
    (printed before = [] ∧ broadcasts before = 0 ∧ receives before = 0) ∧
    (printed polls = [] ∧ broadcasts polls = 0 ∧ receives polls = n) ∧
    (s = Aborted →
     Error_Detected (dispatch_all (take n (ticks e)) (initial_globals e))
     = true) ∧
    (s = Running → n = length (ticks e)) ∧
    main e =
      Some (match s with
            | Running =>
                mkResult None (Some Running)
                  (before ++
                   Call_Send_WhoIs Target_Object_Instance_Min
                     Target_Object_Instance_Max :: polls)
            | _ =>
                mkResult (Some 0%Z) (Some s)
                  (before ++
                   Call_Send_WhoIs Target_Object_Instance_Min
                     Target_Object_Instance_Max :: polls ++
                   map Stdout_device_id
                     (enumerate
                        (Address_Cache
                           (dispatch_all (take n (ticks e))
                              (initial_globals e)))))
            end).
Proof.
  intros Hfits Hinit.
  destruct (main_started e Hfits Hinit)
    as (before & g0 & Htr0 & Hp0 & Hb0 & Hr0 & He0 & Hc0 & Hmain).
  destruct (main_loop registered (configured_timeout e ÷ 1000) (ticks e) g0
              (mkLocals 0 (start_seconds e))) as [[g1 l1] s] eqn:Hloop.
  specialize (Hmain _ _ _ eq_refl).
  destruct (main_loop_steps _ _ _ _ _ _ _ Hloop)
    as (n & Hn & (polls & Htr1 & Hpolls) & He1 & Hc1 & Hab & Hrun).
  assert (Address_Cache g1 =
          Address_Cache (dispatch_all (take n (ticks e)) (initial_globals e)))
    as Hc by (rewrite Hc1; by apply dispatch_all_Address_Cache).
  assert (length (Address_Cache g1) ≤ MAX_ADDRESS_CACHE) as Hlen.
  { rewrite Hc. apply dispatch_all_cache_length. cbn. lia. }
  rewrite valid_entries_cache, Hc in Hmain by done.
  rewrite Htr1, Htr0, <- !app_assoc in Hmain. cbn [app] in Hmain.
  exists before, polls, s, n.
  split; [done|]. split; [done|]. split; [done|]. split; [|split; [done|]].
  - intros Hs. rewrite <- (Hab Hs), He1, !dispatch_all_Error_Detected.
    by rewrite He0.
  - by destruct s.
Qed.

(** ** Consequences for the whole run *)

Lemma main_init_failed e :
  datalink_init_ok e = false →
  ∃ tr, main e = Some (mkResult (Some 1%Z) None tr) ∧
        printed tr = [] ∧ broadcasts tr = 0 ∧ receives tr = 0.
Proof.
  intros Hinit.
  destruct (Init_DataLink_spec e (address_init (initial_globals e)))
    as (g & Hg & Hpolled & _); [done|].
  apply polled_counts in Hpolled as (Hp & Hb & Hr).
  exists (trace g). unfold main. by rewrite Hg, Hinit.
Qed.

Lemma handled_fatal_Address_Cache x g :
  tick_fatal x = true → Address_Cache (handled x g) = Address_Cache g.
Proof.
  unfold tick_fatal, handled. destruct (rx x) as [ev|]; [|done].
  rewrite npdu_handler_Address_Cache. by destruct ev.
Qed.

(** From an empty cache, the report is the first [MAX_ADDRESS_CACHE]
    distinct device ids identified. *)
Lemma enumerate_dispatch_all e xs :
  enumerate (Address_Cache (dispatch_all xs (initial_globals e))) =
  take MAX_ADDRESS_CACHE (distinct (identified xs)).
Proof. rewrite cache_after; [done | cbn; lia]. Qed.

Lemma NoDup_take_of (l : list Z) n : NoDup l → NoDup (take n l).
Proof.
  intros Hl. rewrite <- (take_drop n l) in Hl.
  by apply NoDup_app in Hl as [? _].
Qed.

(** The distinct ids grow at the end, and only by an id not seen before. *)
Lemma distinct_snoc ids id :
  distinct (ids ++ [id]) =
  distinct ids ++ (if bool_decide (id ∈ ids) then [] else [id]).
Proof. apply (first_occurrences_snoc ids []). Qed.

Lemma identified_nil xs :
  Forall (λ x, rx x = None ∨ rx x = Some UnrecognizedService) xs →
  identified xs = [] ∧ existsb tick_fatal xs = false.
Proof.
  induction 1 as [|x xs Hx _ [IHi IHf]]; [done|].
  rewrite identified_cons. unfold tick_fatal at 1. cbn.
  by destruct Hx as [-> | ->].
Qed.

(** ** Properties of the session *)

(** C9.  The final report stays within its arrays.  Whatever
    [address_get_by_index] answers, each index scanned raises [k] by one or
    leaves it; after any [n] of the [MAX_ADDRESS_CACHE] indices the
    compaction is within defined behaviour with [k] at most [n] and the
    three arrays at their declared length, so every store at [k] was inside
    them; and the report prints at most [MAX_ADDRESS_CACHE] device-id lines.
    (The second index of [mac_array], bounded by 10 in the source, needs
    [MAX_MAC_LEN] not above 10.) *)
Theorem report_within_bounds (get : nat → option DeviceRecord) (g : globals) :
  MAX_MAC_LEN ≤ 10 →
  (∀ i r r', compact_body get i r = Some r' →
             k r' = k r ∨ k r' = S (k r)) ∧
  (∀ n, n ≤ MAX_ADDRESS_CACHE →
        ∃ r, for_loop 0 n (compact_body get) initial_report_locals = Some r ∧
             k r ≤ n ∧
             length (device_id_array r) = MAX_ADDRESS_CACHE ∧
             length (net_array r) = MAX_ADDRESS_CACHE ∧
             length (mac_array r) = MAX_ADDRESS_CACHE) ∧
  ∃ g' ids, report get g = Some g' ∧
            trace g' = trace g ++ map Stdout_device_id ids ∧
            length ids ≤ MAX_ADDRESS_CACHE.
Proof.
  intros Hfits. split; [|split].
  - intros i r r' Hbody. unfold compact_body in Hbody.
    destruct (get i) as [entry|]; [|injection Hbody as <-; by left].
    destruct (store (device_id_array r) _ _); [|done].
    destruct (store (net_array r) _ _); [|done].
    cbn in Hbody. destruct (for_loop _ _ _ _); [|done].
    injection Hbody as <-. by right.
  - intros n Hn.
    destruct (compaction_prefix get n Hfits Hn)
      as (r & Hr & Hk & Hids & Hnets & [Hmacs _] & _).
    exists r. repeat split; try done.
    rewrite Hk. apply valid_entries_length.
  - destruct (report_spec get g Hfits) as (g' & Hreport & Htrace).
    exists g', (map device_id (valid_entries get MAX_ADDRESS_CACHE)).
    repeat split; try done.
    rewrite length_map. apply valid_entries_length.
Qed.

(** C1 (as amended).  A session that processes the ticks [pre] and then
    stops at [x], by time-out or by a fatal event, has seen the device ids
    [identified (pre ++ [x])], some of them more than once.  The cache then
    holds as many records as there are distinct ids, but never more than
    [MAX_ADDRESS_CACHE]; the report prints each id at most once: the first
    [MAX_ADDRESS_CACHE] distinct ids in the order in which each was first
    identified, which are all of them when they fit the cache. *)
Theorem report_lists_first_occurrences e pre x post :
  MAX_MAC_LEN ≤ 10 →
  datalink_init_ok e = true →
  ticks e = pre ++ x :: post →
  Forall (λ y, quiet (configured_timeout e ÷ 1000) (start_seconds e) y = true)
    pre →
  stops (configured_timeout e ÷ 1000) (start_seconds e) x = true →
  let seen := distinct (identified (pre ++ [x])) in
  let cache := Address_Cache (dispatch_all (pre ++ [x]) (initial_globals e)) in
  (NoDup seen ∧ ∀ id, id ∈ seen ↔ id ∈ identified (pre ++ [x])) ∧
  size cache = min MAX_ADDRESS_CACHE (length seen) ∧
  ∃ r, main e = Some r ∧
       session r = Some (if tick_fatal x then Aborted else TimedOut) ∧
       printed (output r) = take MAX_ADDRESS_CACHE seen ∧
       NoDup (printed (output r)) ∧
       (length seen ≤ MAX_ADDRESS_CACHE → printed (output r) = seen).
Proof.
  intros Hfits Hinit Hticks Hquiet Hstop seen cache.
  assert (NoDup seen) as Hnodup by apply first_occurrences_NoDup.
  split; [split; [done|]|split].
  - intros id. unfold seen, distinct. rewrite first_occurrences_elem.
    split; [tauto|]. intros Hid. split; [done|]. by intros ?%elem_of_nil.
  - unfold size, cache. rewrite <- (length_map device_id).
    fold (enumerate (Address_Cache
                       (dispatch_all (pre ++ [x]) (initial_globals e)))).
    by rewrite enumerate_dispatch_all, length_take.
  - destruct (main_stops e pre x post Hfits Hinit Hticks Hquiet Hstop)
      as (tr & Hmain & Hp & _).
    eexists. split; [exact Hmain|]. cbn.
    rewrite printed_app, Hp, printed_device_ids, enumerate_dispatch_all.
    cbn. fold seen. repeat split; try done.
    + by apply NoDup_take_of.
    + intros Hlen. by apply take_ge.
Qed.

(** C2.  When the ticks [pre] are processed and then a fatal event arrives,
    the session ends [Aborted] with exit status 0, and the report is the
    content of the cache as it was before the fatal event.  In particular,
    if the identifications before the Abort were for device 10 and then
    device 20, the report is 10, 20 in that order. *)
Theorem abort_preserves_partial_results e pre x post :
  MAX_MAC_LEN ≤ 10 →
  datalink_init_ok e = true →
  ticks e = pre ++ x :: post →
  Forall (λ y, quiet (configured_timeout e ÷ 1000) (start_seconds e) y = true)
    pre →
  tick_fatal x = true →
  ∃ r, main e = Some r ∧
       session r = Some Aborted ∧
       exit_status r = Some 0%Z ∧
       printed (output r) =
         enumerate (Address_Cache (dispatch_all pre (initial_globals e))) ∧
       (2 ≤ MAX_ADDRESS_CACHE → identified pre = [10; 20]%Z →
        printed (output r) = [10; 20]%Z).
Proof.
  intros Hfits Hinit Hticks Hquiet Hfatal.
  destruct (main_stops e pre x post Hfits Hinit Hticks Hquiet)
    as (tr & Hmain & Hp & _); [unfold stops; by rewrite Hfatal|].
  rewrite Hfatal in Hmain.
  eexists. split; [exact Hmain|]. cbn.
  rewrite printed_app, Hp, printed_device_ids, dispatch_all_app. cbn.
  rewrite handled_fatal_Address_Cache by done.
  repeat split; try done.
  intros Hcap Hids. rewrite enumerate_dispatch_all, Hids.
  by apply take_ge.
Qed.

(** C3.  Suppose the loop is still running after the ticks [pre] and the
    next tick brings an Abort or a Reject.  Then the loop stops [Aborted] in
    that very iteration, with the flag set, after exactly one receive more
    than the ticks before, and with the cache as it was; whatever ticks
    would follow are never looked at.  A handler never clears the flag and
    a fatal event sets it; and an iteration that finds the flag set stops
    the loop whether a datagram arrived or not. *)
Theorem fatal_error_is_final ts pre x g l g1 l1 :
  main_loop registered ts pre g l = (g1, l1, Running) →
  tick_fatal x = true →
  (∃ g',
     (∀ post,
        main_loop registered ts (pre ++ x :: post) g l = (g', l1, Aborted)) ∧
     Error_Detected g' = true ∧
     Address_Cache g' = Address_Cache g1 ∧
     ∃ polls, trace g' = trace g ++ polls ∧ receives polls = S (length pre)) ∧
  (∀ ev h, Error_Detected h = true →
           Error_Detected (npdu_handler registered ev h) = true) ∧
  (∀ ev h, fatal ev = true →
           Error_Detected (npdu_handler registered ev h) = true) ∧
  (∀ ts' y h l', Error_Detected h = true →
                 ∃ h', loop_body registered ts' y h l' = (h', l', Aborted) ∧
                       Error_Detected h' = true).
Proof.
  intros Hpre Hfatal. split; [|split; [|split]].
  - destruct (main_loop_steps _ _ _ _ _ _ _ Hpre)
      as (n & _ & Hpolled & _ & _ & _ & Hn).
    rewrite (Hn eq_refl) in Hpolled.
    destruct (loop_body_spec ts x g1 l1) as (g' & Hbody & Hp' & He' & Hc').
    rewrite Hfatal, orb_true_r in Hbody, He'.
    exists g'. split; [|split; [done|split]].
    + intros post. rewrite (main_loop_app _ _ _ _ _ _ _ Hpre).
      cbn [main_loop]. by rewrite Hbody.
    + by rewrite Hc', handled_fatal_Address_Cache.
    + destruct (polled_trans _ _ _ _ _ Hpolled Hp')
        as (polls & Htr & _ & _ & Hr).
      exists polls. split; [done|]. lia.
  - intros ev h Hh. by rewrite npdu_handler_Error_Detected, Hh.
  - intros ev h Hev. by rewrite npdu_handler_Error_Detected, Hev, orb_true_r.
  - intros ts' y h l' Hh.
    destruct (loop_body_spec ts' y h l') as (h' & Hbody & _ & He' & _).
    rewrite Hh in Hbody, He'. by exists h'.
Qed.

(** C4.  [Init_Service_Handlers] registers [handler_unrecognized_service]
    for unrecognized services and [MyAbortHandler] and [MyRejectHandler]
    for aborts and rejects; the first leaves the flag as it is, the other
    two set it.  A session whose receives deliver nothing or unrecognized
    services never ends [Aborted] and reports no device; as soon as a tick
    lies more than the budget of whole seconds after the start it ends
    [TimedOut] with exit status 0. *)
Theorem unrecognized_service_is_tolerated e :
  MAX_MAC_LEN ≤ 10 →
  datalink_init_ok e = true →
  Forall (λ x, rx x = None ∨ rx x = Some UnrecognizedService) (ticks e) →
  (Unrecognized_Service_Handler registered = Some handler_unrecognized_service ∧
   Abort_Function registered = Some MyAbortHandler ∧
   Reject_Function registered = Some MyRejectHandler ∧
   ∀ g, Error_Detected (handler_unrecognized_service g) = Error_Detected g ∧
        (∀ src i reason server,
           Error_Detected (MyAbortHandler src i reason server g) = true) ∧
        (∀ src i reason,
           Error_Detected (MyRejectHandler src i reason g) = true)) ∧
  ∃ r, main e = Some r ∧
       session r ≠ Some Aborted ∧
       printed (output r) = [] ∧
       ∀ pre x post,
         ticks e = pre ++ x :: post →
         Forall (λ y, (now y - start_seconds e ≤ configured_timeout e ÷ 1000)%Z)
           pre →
         (configured_timeout e ÷ 1000 < now x - start_seconds e)%Z →
         session r = Some TimedOut ∧ exit_status r = Some 0%Z ∧
         receives (output r) = S (length pre).
Proof.
  intros Hfits Hinit Hnoise. split; [done|].
  destruct (main_run e Hfits Hinit)
    as (before & polls & s & n & Hn & (Hp0 & _) & (Hp1 & _) & Hab & _ & Hmain).
  destruct (identified_nil (take n (ticks e))) as [Hids Hnf];
    [by apply Forall_take|].
  assert (s ≠ Aborted) as Hs.
  { intros ->. specialize (Hab eq_refl).
    rewrite dispatch_all_Error_Detected, Hnf in Hab. done. }
  rewrite enumerate_dispatch_all, Hids in Hmain. cbn [distinct first_occurrences]
    in Hmain. rewrite take_nil, app_nil_r in Hmain.
  eexists. split; [exact Hmain|]. split; [|split].
  - destruct s; cbn; congruence.
  - assert (printed (before ++ Call_Send_WhoIs Target_Object_Instance_Min
                                 Target_Object_Instance_Max :: polls) = [])
      as Hprinted.
    { rewrite printed_app, Hp0. cbn. exact Hp1. }
    by destruct s.
  - intros pre x post Hticks Hpre Hx.
    rewrite Hticks in Hnoise.
    apply Forall_app in Hnoise as [Hnpre [Hnx _]%Forall_cons].
    destruct (main_stops e pre x post Hfits Hinit Hticks)
      as (tr & Hmain' & _ & _ & Hr).
    + apply Forall_forall. intros y Hy. unfold quiet.
      rewrite Forall_forall in Hpre, Hnpre.
      specialize (Hpre y Hy). specialize (Hnpre y Hy).
      apply andb_true_iff. split; [|by apply Z.leb_le].
      unfold tick_fatal. by destruct Hnpre as [-> | ->].
    + unfold stops. apply orb_true_iff. right.
      rewrite Z.gtb_ltb. by apply Z.ltb_lt.
    + rewrite Hmain in Hmain'. injection Hmain' as Heq.
      assert (tick_fatal x = false) as Hfx
        by (unfold tick_fatal; by destruct Hnx as [-> | ->]).
      rewrite Hfx in Heq. rewrite Heq. cbn [session exit_status output].
      rewrite receives_app, receives_device_ids, Hr. repeat split; lia.
Qed.

(** C5 (as amended).  With a budget of 0 seconds and no datagram, the loop
    goes on polling for as long as [time] has not passed the second in
    which the session started, however many idle polls that takes, and it
    ends [TimedOut] with nothing reported at the first poll whose timestamp
    is later. *)
Theorem zero_budget_ends_with_the_starting_second e pre x post :
  MAX_MAC_LEN ≤ 10 →
  datalink_init_ok e = true →
  (configured_timeout e ÷ 1000 = 0)%Z →
  ticks e = pre ++ x :: post →
  Forall (λ y, rx y = None ∧ (now y ≤ start_seconds e)%Z) pre →
  rx x = None →
  (start_seconds e < now x)%Z →
  ∃ r, main e = Some r ∧
       session r = Some TimedOut ∧
       exit_status r = Some 0%Z ∧
       printed (output r) = [] ∧
       receives (output r) = S (length pre).
Proof.
  intros Hfits Hinit Hzero Hticks Hpre Hx Hlate.
  assert (tick_fatal x = false) as Hfx by (unfold tick_fatal; by rewrite Hx).
  destruct (main_stops e pre x post Hfits Hinit Hticks)
    as (tr & Hmain & Hp & _ & Hr).
  - apply Forall_forall. intros y Hy. rewrite Forall_forall in Hpre.
    destruct (Hpre y Hy) as [Hrx Hnow]. unfold quiet, tick_fatal.
    rewrite Hrx, Hzero. cbn. apply Z.leb_le. lia.
  - unfold stops. rewrite Hfx, Hzero, Z.gtb_ltb. cbn. apply Z.ltb_lt. lia.
  - rewrite Hfx in Hmain. eexists. split; [exact Hmain|]. cbn.
    assert (identified (pre ++ [x]) = []) as Hids.
    { apply identified_nil, Forall_app. split.
      - eapply Forall_impl; [exact Hpre|]. cbn. intros y [Hy _]. by left.
      - apply Forall_singleton. by left. }
    rewrite enumerate_dispatch_all, Hids. cbn [distinct first_occurrences].
    rewrite take_nil. cbn [map]. rewrite app_nil_r. by repeat split.
Qed.

(** C6.  An iteration that does not find the fatal flag adds the difference
    between its own timestamp and the previous one to the running total and
    stops the loop [TimedOut] exactly when the total is then above the
    budget; otherwise it keeps its timestamp for the next iteration.  For
    the session, with [time] giving whole seconds of a millisecond clock and
    no fatal event: as long as every tick leaves the total within the
    budget the loop runs on, its total being the sum of the differences so
    far, which is the whole-second distance of the latest tick from the
    start, and 0 while the clock is within the second in which the session
    started; at the first tick that brings the total above the budget the
    loop stops [TimedOut], and by then more than the budget has passed on
    the millisecond clock. *)
Theorem time_is_accounted_in_whole_seconds ts T0 pre sample post g :
  Error_Detected g = false →
  Forall (λ s, tick_fatal (ms_tick s) = false) (pre ++ [sample]) →
  Forall (λ s, (seconds_of s.1 - seconds_of T0 ≤ ts)%Z) pre →
  (ts < seconds_of sample.1 - seconds_of T0)%Z →
  (∀ x h l,
     Error_Detected h || tick_fatal x = false →
     let elapsed_seconds := (now x - last_seconds l)%Z in
     let total := (total_seconds l + elapsed_seconds)%Z in
     ∃ h', loop_body registered ts x h l =
             (h',
              mkLocals total (if (total >? ts)%Z then last_seconds l else now x),
              if (total >? ts)%Z then TimedOut else Running)) ∧
  (∃ g1 l1,
     main_loop registered ts (map ms_tick pre) g
       (mkLocals 0 (seconds_of T0)) = (g1, l1, Running) ∧
     total_seconds l1 = elapsed_sum (seconds_of T0) (map ms_tick pre) ∧
     total_seconds l1 =
       (last_now (seconds_of T0) (map ms_tick pre) - seconds_of T0)%Z ∧
     last_seconds l1 = last_now (seconds_of T0) (map ms_tick pre) ∧
     (Forall (λ s, T0 ≤ s.1 < 1000 * (seconds_of T0 + 1))%Z pre →
      total_seconds l1 = 0%Z)) ∧
  (∃ g' l',
     main_loop registered ts (map ms_tick (pre ++ sample :: post)) g
       (mkLocals 0 (seconds_of T0)) = (g', l', TimedOut) ∧
     total_seconds l' =
       elapsed_sum (seconds_of T0) (map ms_tick (pre ++ [sample])) ∧
     total_seconds l' = (seconds_of sample.1 - seconds_of T0)%Z ∧
     (ts < total_seconds l')%Z ∧
     (1000 * ts < sample.1 - T0)%Z).
Proof.
  intros Hflag Hnf Hpre Hlate.
  apply Forall_app in Hnf as [Hnpre [Hnx _]%Forall_cons].
  set (start := seconds_of T0) in *.
  assert (Forall (λ x, quiet ts start x = true) (map ms_tick pre)) as Hquiet.
  { apply Forall_fmap, Forall_forall. intros s Hs.
    rewrite Forall_forall in Hnpre, Hpre. unfold compose, quiet.
    rewrite (Hnpre s Hs). cbn. apply Z.leb_le. by apply Hpre. }
  split; [|split].
  - intros x h l Hgo elapsed_seconds total.
    destruct (loop_body_spec ts x h l) as (h' & Hbody & _).
    rewrite Hgo in Hbody. by exists h'.
  - destruct (main_loop_quiet ts start (map ms_tick pre) g (mkLocals 0 start)
                Hflag) as (g1 & l1 & Hrun & _ & _ & _ & Hinv); [cbn; lia|done|].
    specialize (Hrun []). rewrite app_nil_r in Hrun. cbn [main_loop] in Hrun.
    pose proof (main_loop_last _ _ _ _ _ _ Hrun) as Hlast.
    cbn [last_seconds] in Hlast.
    exists g1, l1. split; [done|].
    rewrite elapsed_sum_telescopes, Hinv, Hlast.
    split; [done|]. split; [done|]. split; [done|].
    intros Hsame.
    destruct (main_loop_total ts start _ _ _ _ _ _ Hrun) as (_ & Hzero & _);
      [cbn; lia|].
    rewrite <- Hlast, <- Hinv. apply Hzero; [done|].
    apply Forall_fmap. eapply Forall_impl; [exact Hsame|].
    intros [T ev] HT. unfold start, ms_tick, seconds_of in *. cbn in HT |- *.
    pose proof (Z.mul_div_le T0 1000 ltac:(lia)).
    symmetry.
    apply Z.div_unique with (r := (T - 1000 * (T0 `div` 1000))%Z);
      [left|]; lia.
  - destruct (main_loop_stops ts start (map ms_tick pre) (ms_tick sample)
                (map ms_tick post) g (mkLocals 0 start) Hflag)
      as (g' & l' & Hrun & _ & _ & _ & Htotal); [cbn; lia | done | |].
    { unfold stops. rewrite Hnx, Z.gtb_ltb. cbn. by apply Z.ltb_lt. }
    rewrite Hnx in Hrun. specialize (Htotal Hnx). cbn [now ms_tick] in Htotal.
    exists g', l'. rewrite map_app. cbn [map]. split; [exact Hrun|].
    rewrite elapsed_sum_telescopes, map_app. cbn [map].
    unfold last_now. rewrite last_snoc. cbn [now ms_tick].
    rewrite Htotal. repeat split; try done.
    unfold start, seconds_of in *.
    pose proof (Z.mod_pos_bound T0 1000) as HT0.
    pose proof (Z.mod_pos_bound sample.1 1000) as HT.
    pose proof (Z.div_mod T0 1000). pose proof (Z.div_mod sample.1 1000).
    lia.
Qed.

(** C7.  Every run whose data link comes up broadcasts exactly once, for
    the device range 0 to 4194303: the Who-Is is in the trace after what
    start-up wrote, before the first receive, and nothing after it is a
    broadcast, however many iterations the loop makes and whatever the
    receives deliver. *)
Theorem one_broadcast_before_the_loop e :
  MAX_MAC_LEN ≤ 10 →
  datalink_init_ok e = true →
  ∃ r before after,
    main e = Some r ∧
    output r = before ++ Call_Send_WhoIs 0 4194303 :: after ∧
    broadcasts before = 0 ∧ receives before = 0 ∧
    broadcasts after = 0 ∧
    broadcasts (output r) = 1 ∧
    receives after ≤ length (ticks e) ∧
    (session r = Some Running → receives after = length (ticks e)).
Proof.
  intros Hfits Hinit.
  destruct (main_run e Hfits Hinit)
    as (before & polls & s & n & Hn & (_ & Hb0 & Hr0) & (_ & Hb1 & Hr1) &
        _ & Hrun & Hmain).
  set (ids := enumerate (Address_Cache (dispatch_all (take n (ticks e))
                                          (initial_globals e)))) in Hmain.
  eexists. exists before.
  exists (match s with Running => polls | _ => polls ++ map Stdout_device_id ids end).
  split; [exact Hmain|].
  assert (broadcasts (polls ++ map Stdout_device_id ids) = 0) as Hb2
    by (by rewrite broadcasts_app, broadcasts_device_ids, Hb1).
  assert (receives (polls ++ map Stdout_device_id ids) = n) as Hr2
    by (rewrite receives_app, receives_device_ids, Hr1; lia).
  change (Call_Send_WhoIs 0 4194303)
    with (Call_Send_WhoIs Target_Object_Instance_Min Target_Object_Instance_Max).
  assert (∀ tr, broadcasts
                  (before ++ Call_Send_WhoIs Target_Object_Instance_Min
                               Target_Object_Instance_Max :: tr)
                = S (broadcasts tr)) as Hcount.
  { intros tr. rewrite broadcasts_app, Hb0. done. }
  destruct s; cbn [output session]; rewrite Hcount, ?Hb2, ?Hb1, ?Hr2, ?Hr1;
    repeat split; try done; try lia.
  intros _. by apply Hrun.
Qed.

(** C8.  [main] always ends within defined behaviour.  When
    [datalink_init] fails the process exits with status 1 before any
    broadcast or receive, and no session exists.  Otherwise a session that
    has ended, [TimedOut] or [Aborted], gives exit status 0, and a session
    still [Running] has given none.  So a status other than 0 can only be
    the 1 of a failed [datalink_init]. *)
Theorem exit_status_convention e :
  MAX_MAC_LEN ≤ 10 →
  ∃ r, main e = Some r ∧
       (datalink_init_ok e = false →
        exit_status r = Some 1%Z ∧ session r = None ∧
        broadcasts (output r) = 0 ∧ receives (output r) = 0) ∧
       (datalink_init_ok e = true →
        (session r = Some TimedOut ∨ session r = Some Aborted) ∧
        exit_status r = Some 0%Z
        ∨ session r = Some Running ∧ exit_status r = None) ∧
       (∀ code, exit_status r = Some code → code ≠ 0%Z →
                code = 1%Z ∧ datalink_init_ok e = false).
Proof.
  intros Hfits. destruct (datalink_init_ok e) eqn:Hinit.
  - destruct (main_run e Hfits Hinit)
      as (before & polls & s & n & _ & _ & _ & _ & _ & Hmain).
    eexists. split; [exact Hmain|]. split; [done|]. split.
    + intros _. destruct s; cbn; [by right | left | left]; split; auto.
    + intros code Hcode Hne. destruct s; cbn in Hcode; congruence.
  - destruct (main_init_failed e Hinit) as (tr & Hmain & _ & Hb & Hr).
    eexists. split; [exact Hmain|]. cbn. split; [done|]. split; [done|].
    intros code Hcode Hne. split; congruence.
Qed.

(** C10.  After [Init_DataLink], [apdu_timeout] reports the configured
    timeout in milliseconds, and the session's budget of whole seconds is
    that number divided by 1000: with no fatal event, the loop stops
    [TimedOut] at the first tick lying more than that many seconds after
    the start.  For a configured timeout below 1000 (and, the division being
    C's, which truncates, above -1000) the budget is 0, and the loop stops
    at the first tick at least one second after the start. *)
Theorem budget_is_apdu_timeout_over_1000 e pre x post :
  MAX_MAC_LEN ≤ 10 →
  datalink_init_ok e = true →
  ticks e = pre ++ x :: post →
  Forall (λ y, tick_fatal y = false) (pre ++ [x]) →
  (∃ g0, Init_DataLink e (address_init (initial_globals e)) = (g0, true) ∧
         apdu_timeout g0 = configured_timeout e) ∧
  (Forall (λ y, (now y - start_seconds e ≤ configured_timeout e ÷ 1000)%Z) pre →
   (configured_timeout e ÷ 1000 < now x - start_seconds e)%Z →
   ∃ r, main e = Some r ∧ session r = Some TimedOut ∧
        receives (output r) = S (length pre)) ∧
  ((-1000 < configured_timeout e < 1000)%Z →
   (configured_timeout e ÷ 1000 = 0)%Z ∧
   (Forall (λ y, (now y - start_seconds e < 1)%Z) pre →
    (1 ≤ now x - start_seconds e)%Z →
    ∃ r, main e = Some r ∧ session r = Some TimedOut ∧
         receives (output r) = S (length pre))).
Proof.
  intros Hfits Hinit Hticks Hnf.
  apply Forall_app in Hnf as [Hnpre [Hnx _]%Forall_cons].
  assert (∀ ts,
            ts = (configured_timeout e ÷ 1000)%Z →
            Forall (λ y, (now y - start_seconds e ≤ ts)%Z) pre →
            (ts < now x - start_seconds e)%Z →
            ∃ r, main e = Some r ∧ session r = Some TimedOut ∧
                 receives (output r) = S (length pre)) as Hstops.
  { intros ts -> Hpre Hx.
    destruct (main_stops e pre x post Hfits Hinit Hticks)
      as (tr & Hmain & _ & _ & Hr).
    - apply Forall_forall. intros y Hy. rewrite Forall_forall in Hpre, Hnpre.
      unfold quiet. rewrite (Hnpre y Hy). cbn. apply Z.leb_le. by apply Hpre.
    - unfold stops. rewrite Hnx, Z.gtb_ltb. cbn. by apply Z.ltb_lt.
    - rewrite Hnx in Hmain. eexists. split; [exact Hmain|].
      cbn [session output].
      rewrite receives_app, receives_device_ids, Hr. split; [done | lia]. }
  split; [|split].
  - destruct (Init_DataLink_spec e (address_init (initial_globals e)))
      as (g0 & Hg0 & _ & _ & _ & Ht); [done|].
    exists g0. by rewrite Hg0, Hinit.
  - by apply Hstops.
  - intros Hsmall.
    assert (configured_timeout e ÷ 1000 = 0)%Z as Hzero.
    { destruct (Z.le_gt_cases 0 (configured_timeout e)).
      - apply Z.quot_small. lia.
      - rewrite <- (Z.opp_involutive (configured_timeout e)).
        rewrite Z.quot_opp_l, Z.quot_small by lia. done. }
    split; [done|]. intros Hpre Hx. apply (Hstops 0%Z); [done | | lia].
    eapply Forall_impl; [exact Hpre|]. cbn. intros y Hy. lia.
Qed.

(** ** Further properties of the code *)

(** [main] with the globals at the loop's entry written out. *)
Lemma main_unfolded e :
  MAX_MAC_LEN ≤ 10 →
  datalink_init_ok e = true →
  ∀ g1 l1 s,
    main_loop registered (configured_timeout e ÷ 1000) (ticks e)
      (emit (Call_Send_WhoIs Target_Object_Instance_Min
               Target_Object_Instance_Max)
         (Init_DataLink e (address_init (initial_globals e))).1)
      (mkLocals 0 (start_seconds e)) = (g1, l1, s) →
    main e =
      Some (match s with
            | Running => mkResult None (Some Running) (trace g1)
            | _ =>
                mkResult (Some 0%Z) (Some s)
                  (trace g1 ++
                   map Stdout_device_id
                     (enumerate
                        (valid_entries
                           (address_get_by_index (Address_Cache g1))
                           MAX_ADDRESS_CACHE)))
            end).
Proof.
  intros Hfits Hinit g1 l1 s Hloop.
  destruct (Init_DataLink_spec e (address_init (initial_globals e)))
    as (g & Hg & _ & _ & _ & Ht); [done|].
  rewrite Hg in Hloop. cbn [fst] in Hloop. rewrite Hinit in Hg.
  unfold main. rewrite Hg. cbv zeta. rewrite Ht. fold registered.
  rewrite Hloop.
  destruct (report_spec (address_get_by_index (Address_Cache g1)) g1 Hfits)
    as (g' & Hreport & Htrace).
  destruct s; [done | |]; rewrite Hreport; cbn; by rewrite Htrace.
Qed.

Lemma main_loop_outcome ts start xs :
  ∀ g l g' l' s,
    main_loop registered ts xs g l = (g', l', s) →
    Error_Detected g = false →
    total_seconds l = (last_seconds l - start)%Z →
    s = outcome ts start xs.
Proof.
  induction xs as [|x xs IH]; intros g l g' l' s Hrun Hflag Hinv.
  { cbn in Hrun. by injection Hrun as <- <- <-. }
  cbn [main_loop outcome] in *.
  destruct (loop_body_spec ts x g l) as (g1 & Hbody & _ & He1 & _).
  rewrite Hbody in Hrun. rewrite Hflag in Hrun, He1. cbn in Hrun, He1.
  destruct (tick_fatal x); [by injection Hrun as <- <- <-|].
  replace (total_seconds l + (now x - last_seconds l))%Z
    with (now x - start)%Z in Hrun by lia.
  destruct (now x - start >? ts)%Z; [by injection Hrun as <- <- <-|].
  apply (IH _ _ _ _ _ Hrun); [done | cbn; lia].
Qed.

(** X1.  The loop adds up differences of timestamps, yet the session ends
    as a check against the absolute deadline would end it: [Aborted] at the
    first tick with a fatal event, [TimedOut] at the first tick more than
    the budget after the start, whichever comes first (a fatal event in a
    tick that is also late aborts), and [Running] as long as there is
    neither.  While the session is running there is no exit status, no
    device id has been printed, and every tick has been received. *)
Theorem session_ends_as_by_an_absolute_deadline e :
  MAX_MAC_LEN ≤ 10 →
  datalink_init_ok e = true →
  ∃ r, main e = Some r ∧
       session r =
         Some (outcome (configured_timeout e ÷ 1000) (start_seconds e)
                 (ticks e)) ∧
       (session r = Some Running →
        exit_status r = None ∧ printed (output r) = [] ∧
        receives (output r) = length (ticks e)) ∧
       (session r ≠ Some Running → exit_status r = Some 0%Z).
Proof.
  intros Hfits Hinit.
  destruct (main_started e Hfits Hinit)
    as (before & g0 & Htr0 & Hp0 & Hb0 & Hr0 & He0 & Hc0 & Hmain).
  destruct (main_loop registered (configured_timeout e ÷ 1000) (ticks e) g0
              (mkLocals 0 (start_seconds e))) as [[g1 l1] s] eqn:Hloop.
  specialize (Hmain _ _ _ eq_refl).
  pose proof (main_loop_outcome _ (start_seconds e) _ _ _ _ _ _ Hloop He0)
    as Hs.
  destruct (main_loop_steps _ _ _ _ _ _ _ Hloop)
    as (n & _ & Hpolled & _ & _ & _ & Hn).
  apply polled_counts in Hpolled as (Hp1 & _ & Hr1).
  eexists. split; [exact Hmain|].
  rewrite <- Hs; [|cbn; lia].
  rewrite Htr0, printed_app, Hp0 in Hp1.
  rewrite Htr0, receives_app, Hr0 in Hr1.
  change (printed [Call_Send_WhoIs _ _]) with (@nil Z) in Hp1.
  change (receives [Call_Send_WhoIs _ _]) with 0 in Hr1.
  destruct s; cbn [session exit_status output]; repeat split; try done.
  rewrite Hr1, (Hn eq_refl). done.
Qed.

(** X2.  Once a run has ended, with whatever session state or with the exit
    of a failed start, the ticks that would have followed do not change
    it: the run with more ticks appended gives the same exit status,
    session state and trace. *)
Theorem ticks_after_the_end_are_ignored e r post :
  main e = Some r →
  session r ≠ Some Running →
  main (with_ticks e (ticks e ++ post)) = Some r.
Proof.
  intros Hmain Hended. rewrite <- Hmain. unfold main.
  change (Init_DataLink (with_ticks e (ticks e ++ post)))
    with (Init_DataLink e).
  change (initial_globals (with_ticks e (ticks e ++ post)))
    with (initial_globals e).
  destruct (Init_DataLink e (address_init (initial_globals e))) as [g [|]]
    eqn:Hinit; [|done].
  cbv zeta. cbn [ticks start_seconds with_ticks]. fold registered.
  destruct (main_loop registered (apdu_timeout g ÷ 1000) (ticks e)
              (emit (Call_Send_WhoIs Target_Object_Instance_Min
                       Target_Object_Instance_Max) g)
              (mkLocals 0 (start_seconds e))) as [[g1 l1] s] eqn:Hloop.
  destruct (decide (s = Running)) as [->|Hs].
  - exfalso. apply Hended. unfold main in Hmain.
    rewrite Hinit in Hmain. cbv zeta in Hmain. fold registered in Hmain.
    rewrite Hloop in Hmain. by injection Hmain as <-.
  - by rewrite (main_loop_stopped _ _ _ _ _ _ _ post Hloop Hs).
Qed.

(** X3.  As long as the loop runs, [total_seconds] is the distance of the
    latest timestamp from the one taken before the loop, and
    [last_seconds] is the latest timestamp, whatever the timestamps in
    between were: what the clock did on the way, forwards or backwards,
    leaves nothing behind in the total. *)
Theorem running_total_is_the_distance_from_the_start ts start xs x g g' l' :
  main_loop registered ts (xs ++ [x]) g (mkLocals 0 start) = (g', l', Running) →
  total_seconds l' = (now x - start)%Z ∧ last_seconds l' = now x.
Proof.
  intros Hrun.
  pose proof (main_loop_last _ _ _ _ _ _ Hrun) as Hlast.
  destruct (main_loop_total ts start _ _ _ _ _ _ Hrun) as (_ & _ & Htotal);
    [cbn; lia|].
  unfold last_now in Hlast. rewrite last_snoc in Hlast.
  rewrite (Htotal eq_refl), Hlast. done.
Qed.

Lemma fatal_lines_app tr1 tr2 :
  fatal_lines (tr1 ++ tr2) = fatal_lines tr1 + fatal_lines tr2.
Proof. unfold fatal_lines. by rewrite filter_app, length_app. Qed.

Lemma maintenance_seconds_app tr1 tr2 :
  maintenance_seconds (tr1 ++ tr2) =
  (maintenance_seconds tr1 + maintenance_seconds tr2)%Z.
Proof.
  unfold maintenance_seconds. induction tr1 as [|e tr1 IH]; [done|].
  cbn [app foldr]. rewrite IH. destruct e; lia.
Qed.

Lemma handled_trace x g : trace (handled x g) = trace g ++ handler_lines x.
Proof.
  unfold handled, handler_lines.
  destruct (rx x) as [[id m src | src i r sv | src i r | | |]|]; cbn;
    by rewrite ?app_nil_r.
Qed.

Lemma handler_lines_spec x :
  forallb loop_effect (handler_lines x) = true ∧
  fatal_lines (handler_lines x) = (if tick_fatal x then 1 else 0) ∧
  maintenance_seconds (handler_lines x) = 0%Z.
Proof.
  unfold handler_lines, tick_fatal.
  by destruct (rx x) as [[id m src | src i r sv | src i r | | |]|].
Qed.

(** The trace of a run of the loop that is entered with the flag clear. *)
Lemma main_loop_effects ts xs :
  ∀ g l g' l' s,
    main_loop registered ts xs g l = (g', l', s) →
    Error_Detected g = false →
    ∃ extra,
      trace g' = trace g ++ extra ∧
      forallb loop_effect extra = true ∧
      fatal_lines extra = (if decide (s = Aborted) then 1 else 0) ∧
      maintenance_seconds extra =
        (if BIP_with_BBMD then total_seconds l' - total_seconds l else 0)%Z.
Proof.
  induction xs as [|x xs IH]; intros g l g' l' s Hrun Hflag.
  { cbn in Hrun. injection Hrun as <- <- <-. exists [].
    rewrite app_nil_r. repeat split; try done.
    destruct BIP_with_BBMD; cbn; lia. }
  cbn [main_loop] in Hrun. unfold loop_body in Hrun. cbv zeta in Hrun.
  set (g0 := emit (Call_datalink_receive timeout) g) in Hrun.
  change (match rx x with
          | Some ev => npdu_handler registered ev g0
          | None => g0
          end) with (handled x g0) in Hrun.
  pose proof (handled_trace x g0) as Htr.
  pose proof (handled_Error_Detected x g0) as He.
  change (trace g0) with (trace g ++ [Call_datalink_receive timeout]) in Htr.
  change (Error_Detected g0) with (Error_Detected g) in He.
  rewrite Hflag in He. cbn [orb] in He.
  destruct (handler_lines_spec x) as (Hle & Hfl & Hms).
  rewrite He in Hrun. destruct (tick_fatal x) eqn:Hfatal.
  { injection Hrun as <- <- <-.
    exists (Call_datalink_receive timeout :: handler_lines x).
    rewrite Htr, <- app_assoc. split; [done|]. split; [done|].
    split; [exact Hfl|]. cbn [maintenance_seconds foldr].
    fold (maintenance_seconds (handler_lines x)). rewrite Hms.
    destruct BIP_with_BBMD; cbn; lia. }
  set (elapsed := (now x - last_seconds l)%Z) in *.
  set (g1 := if negb (elapsed =? 0)%Z && BIP_with_BBMD
             then emit (Call_bvlc_maintenance_timer elapsed) (handled x g0)
             else handled x g0) in Hrun.
  set (tick_effects :=
         Call_datalink_receive timeout :: handler_lines x ++
         if negb (elapsed =? 0)%Z && BIP_with_BBMD
         then [Call_bvlc_maintenance_timer elapsed] else []).
  assert (trace g1 = trace g ++ tick_effects ∧ Error_Detected g1 = false)
    as [Htr1 He1].
  { unfold g1, tick_effects. destruct (negb _ && _); cbn [emit trace];
      rewrite Htr, <- ?app_assoc, ?app_nil_r; by split. }
  assert (forallb loop_effect tick_effects = true ∧
          fatal_lines tick_effects = 0 ∧
          maintenance_seconds tick_effects =
            (if BIP_with_BBMD then elapsed else 0)%Z) as (Hle1 & Hfl1 & Hms1).
  { unfold tick_effects.
    change (?e :: ?tr1 ++ ?tr2) with (([e] ++ tr1) ++ tr2).
    rewrite forallb_app, fatal_lines_app, maintenance_seconds_app.
    rewrite forallb_app, fatal_lines_app, maintenance_seconds_app.
    rewrite Hle, Hfl, Hms.
    destruct (elapsed =? 0)%Z eqn:Hzero, BIP_with_BBMD eqn:Hbbmd; cbn;
      rewrite ?Hbbmd, ?Hzero; repeat split; try done; try lia. }
  destruct (_ >? ts)%Z.
  { injection Hrun as <- <- <-. exists tick_effects.
    repeat split; try done. rewrite Hms1.
    destruct BIP_with_BBMD; cbn; lia. }
  destruct (IH _ _ _ _ _ Hrun He1) as (extra & Htr' & Hle' & Hfl' & Hms').
  exists (tick_effects ++ extra).
  rewrite Htr', Htr1, <- app_assoc, forallb_app, fatal_lines_app,
    maintenance_seconds_app, Hle1, Hle', Hfl1, Hfl', Hms1, Hms'.
  repeat split; try done. destruct BIP_with_BBMD; cbn; lia.
Qed.

Lemma Init_DataLink_trace e g :
  trace (Init_DataLink e g).1 = trace g ++ start_up e.
Proof.
  unfold Init_DataLink, start_up.
  destruct (BACNET_APDU_TIMEOUT e) as [[text value]|], (datalink_init_ok e),
    BIP_with_BBMD, (BACNET_BBMD_ADDRESS_resolved e), BACDL; cbn;
    by rewrite <- ?app_assoc, ?app_nil_r.
Qed.

(** The whole trace of a run whose data link came up. *)
Lemma main_effects e :
  MAX_MAC_LEN ≤ 10 →
  datalink_init_ok e = true →
  ∃ polls ids s l',
    main e =
      Some (mkResult (if decide (s = Running) then None else Some 0%Z) (Some s)
              (start_up e ++
               Call_Send_WhoIs 0 4194303 :: polls ++
               if decide (s = Running) then []
               else map Stdout_device_id ids)) ∧
    forallb loop_effect polls = true ∧
    fatal_lines polls = (if decide (s = Aborted) then 1 else 0) ∧
    maintenance_seconds polls =
      (if BIP_with_BBMD then total_seconds l' else 0)%Z.
Proof.
  intros Hfits Hinit.
  set (g0 := emit (Call_Send_WhoIs Target_Object_Instance_Min
                     Target_Object_Instance_Max)
               (Init_DataLink e (address_init (initial_globals e))).1).
  destruct (main_loop registered (configured_timeout e ÷ 1000) (ticks e) g0
              (mkLocals 0 (start_seconds e))) as [[g1 l1] s] eqn:Hloop.
  pose proof (main_unfolded e Hfits Hinit _ _ _ Hloop) as Hmain.
  destruct (Init_DataLink_spec e (address_init (initial_globals e)))
    as (g & Hg & _ & He & _); [done|].
  destruct (main_loop_effects _ _ _ _ _ _ _ Hloop)
    as (polls & Htr & Hle & Hfl & Hms).
  { unfold g0. rewrite Hg. cbn. by rewrite He. }
  assert (trace g0 = start_up e ++ [Call_Send_WhoIs 0 4194303]) as Htr0.
  { unfold g0. cbn [emit trace]. by rewrite Init_DataLink_trace. }
  rewrite Htr, Htr0, <- !app_assoc in Hmain. cbn [app] in Hmain.
  exists polls,
    (enumerate (valid_entries (address_get_by_index (Address_Cache g1))
                  MAX_ADDRESS_CACHE)), s, l1.
  split; [|split; [done|split; [done|]]].
  - rewrite Hmain. destruct s; cbn; by rewrite ?app_nil_r.
  - rewrite Hms. destruct BIP_with_BBMD; cbn; lia.
Qed.

Lemma start_up_spec e :
  fatal_lines (start_up e) = 0 ∧ maintenance_seconds (start_up e) = 0%Z.
Proof.
  unfold start_up.
  by destruct (BACNET_APDU_TIMEOUT e) as [[text value]|],
    (datalink_init_ok e && (BIP_with_BBMD && BACNET_BBMD_ADDRESS_resolved e)).
Qed.

Lemma fatal_lines_device_ids ids : fatal_lines (map Stdout_device_id ids) = 0.
Proof. by induction ids. Qed.

(** X4.  The trace of every run has one shape.  Start-up writes the line
    about [BACNET_APDU_TIMEOUT] when that variable is set and, only when
    [datalink_init] has succeeded in a BACnet/IP build with BBMD support and
    the BBMD's address was found, announces and makes the registration.  If
    [datalink_init] failed, that is all.  Otherwise the Who-Is follows,
    then the loop, which does nothing but receive with a wait of 1 ms, let
    the handlers write and reply, and run the maintenance timer (with
    seconds other than 0, in a build with BBMD support only), and at the
    end nothing but device-id lines. *)
Theorem trace_is_start_up_broadcast_polls_report e :
  MAX_MAC_LEN ≤ 10 →
  ∃ r, main e = Some r ∧
       if datalink_init_ok e
       then ∃ polls ids,
              output r =
                start_up e ++ Call_Send_WhoIs 0 4194303 :: polls ++
                map Stdout_device_id ids ∧
              forallb loop_effect polls = true
       else output r = start_up e.
Proof.
  intros Hfits. destruct (datalink_init_ok e) eqn:Hinit.
  - destruct (main_effects e Hfits Hinit)
      as (polls & ids & s & l' & Hmain & Hle & _).
    eexists. split; [exact Hmain|]. cbn [output].
    exists polls, (if decide (s = Running) then [] else ids).
    split; [|done]. by destruct (decide (s = Running)).
  - exists (mkResult (Some 1%Z) None (start_up e)). split; [|done].
    unfold main.
    pose proof (Init_DataLink_trace e (address_init (initial_globals e)))
      as Htr.
    destruct (Init_DataLink_spec e (address_init (initial_globals e)))
      as (g & Hg & _); [done|].
    rewrite Hg in Htr |- *. rewrite Hinit. cbn in Htr. by rewrite Htr.
Qed.

(** X5.  A session writes "BACnet Abort" or "BACnet Reject" at most once:
    exactly once when it ends [Aborted], and never when it ends [TimedOut]
    or is still running. *)
Theorem at_most_one_fatal_line e :
  MAX_MAC_LEN ≤ 10 →
  datalink_init_ok e = true →
  ∃ r, main e = Some r ∧
       fatal_lines (output r) =
         (if decide (session r = Some Aborted) then 1 else 0).
Proof.
  intros Hfits Hinit.
  destruct (main_effects e Hfits Hinit)
    as (polls & ids & s & l' & Hmain & _ & Hfl & _).
  destruct (start_up_spec e) as [Hstart _].
  eexists. split; [exact Hmain|]. cbn [output session].
  rewrite fatal_lines_app, Hstart.
  change (fatal_lines (Call_Send_WhoIs 0 4194303 :: ?tr))
    with (fatal_lines tr).
  rewrite fatal_lines_app, Hfl.
  destruct s; repeat case_decide; try congruence;
    by rewrite ?fatal_lines_device_ids.
Qed.

(** X6.  In a build with BBMD support the seconds handed to
    [bvlc_maintenance_timer] during a run of the loop add up to
    [total_seconds], whether the loop is still running, has timed out or
    was aborted, and the timer is never called with 0 seconds; in any other
    build it is never called. *)
Theorem maintenance_timer_is_given_the_total ts start xs g g' l' s :
  main_loop registered ts xs g (mkLocals 0 start) = (g', l', s) →
  Error_Detected g = false →
  ∃ extra,
    trace g' = trace g ++ extra ∧
    maintenance_seconds extra =
      (if BIP_with_BBMD then total_seconds l' else 0)%Z ∧
    ∀ seconds, Call_bvlc_maintenance_timer seconds ∈ extra →
               BIP_with_BBMD = true ∧ seconds ≠ 0%Z.
Proof.
  intros Hrun Hflag.
  destruct (main_loop_effects _ _ _ _ _ _ _ Hrun Hflag)
    as (extra & Htr & Hle & _ & Hms).
  exists extra. split; [done|]. split.
  - rewrite Hms. cbn. destruct BIP_with_BBMD; lia.
  - intros seconds Hin.
    rewrite forallb_forall in Hle. apply list_elem_of_In in Hin.
    specialize (Hle _ Hin). cbn in Hle.
    apply andb_true_iff in Hle as [Hbbmd Hne].
    split; [done|]. apply negb_true_iff, Z.eqb_neq in Hne. done.
Qed.

(** X7.  [MyAbortHandler] and [MyRejectHandler] look neither at the
    source address nor at the invoke id: a run in which every Abort and
    Reject has lost its origin is the same run, with the same exit status,
    session state and trace. *)
Theorem origin_of_abort_is_not_checked e :
  main (with_ticks e (forget_origin <$> ticks e)) = main e.
Proof.
  assert (∀ ts x g l,
            loop_body registered ts (forget_origin x) g l =
            loop_body registered ts x g l) as Hbody.
  { intros ts x g l. unfold loop_body, forget_origin. cbn [now rx].
    by destruct (rx x) as [[id m src | src i r sv | src i r | | |]|]. }
  assert (∀ ts xs g l,
            main_loop registered ts (forget_origin <$> xs) g l =
            main_loop registered ts xs g l) as Hloop.
  { intros ts xs. induction xs as [|x xs IH]; intros g l; [done|].
    cbn [fmap list_fmap main_loop]. rewrite Hbody.
    by destruct (loop_body registered ts x g l) as [[g1 l1] [| |]]. }
  unfold main.
  change (Init_DataLink (with_ticks e (forget_origin <$> ticks e)))
    with (Init_DataLink e).
  change (initial_globals (with_ticks e (forget_origin <$> ticks e)))
    with (initial_globals e).
  destruct (Init_DataLink e (address_init (initial_globals e))) as [g [|]];
    [|done].
  cbv zeta. cbn [ticks start_seconds with_ticks]. fold registered.
  by rewrite Hloop.
Qed.

(** Whatever holds before a counted loop and is kept by every iteration
    that stays within defined behaviour holds after it. *)
Lemma for_loop_keeps {St : Type} (P : St → Prop)
    (body : nat → St → option St) n :
  (∀ i s s', body i s = Some s' → P s → P s') →
  ∀ first s s', for_loop first n body s = Some s' → P s → P s'.
Proof.
  intros Hstep. induction n as [|n IH]; intros first s s' Hloop Hs.
  { cbn in Hloop. by injection Hloop as <-. }
  cbn in Hloop. destruct (body first s) as [s1|] eqn:Hbody; [|done].
  eapply IH; [exact Hloop|]. by eapply Hstep.
Qed.

(** X8.  Whatever [address_get_by_index] answers, the report consults the
    indices below [MAX_ADDRESS_CACHE] and prints the device id of every one
    for which the answer is yes, once, in the order of the indices, and
    nothing else; indices without an entry are passed over.  It leaves the
    fatal flag, the cache and the APDU timeout as they are. *)
Theorem report_prints_the_valid_slots_in_order
    (get : nat → option DeviceRecord) (g : globals) :
  MAX_MAC_LEN ≤ 10 →
  ∃ g', report get g = Some g' ∧
        trace g' = trace g ++ map Stdout_device_id
                     (device_id <$> omap get (seq 0 MAX_ADDRESS_CACHE)) ∧
        Error_Detected g' = Error_Detected g ∧
        Address_Cache g' = Address_Cache g ∧
        Timeout_Milliseconds g' = Timeout_Milliseconds g.
Proof.
  intros Hfits.
  destruct (report_spec get g Hfits) as (g' & Hreport & Htrace).
  exists g'. split; [done|]. split; [done|].
  unfold report in Hreport.
  destruct (compaction get) as [r|]; [|done]. cbn in Hreport.
  apply (for_loop_keeps
           (λ h, Error_Detected h = Error_Detected g ∧
                 Address_Cache h = Address_Cache g ∧
                 Timeout_Milliseconds h = Timeout_Milliseconds g)
           (print_body r) (k r)) with (first := 0) (s := g); [|done|done].
  intros l h h' Hprint Hh. unfold print_body in Hprint.
  destruct (load (device_id_array r) l); [|done].
  by injection Hprint as <-.
Qed.

Lemma store_at_end {A : Type} (pre rest : list A) x v n :
  length pre = n → store (pre ++ x :: rest) n v = Some (pre ++ v :: rest).
Proof.
  intros <-. rewrite store_Some by (rewrite length_app; cbn; lia).
  by rewrite insert_app_r_alt, Nat.sub_diag by lia.
Qed.

Lemma mac_row_length address j : length (mac_row address j) = 10.
Proof. unfold mac_row. by rewrite length_fmap, length_seq. Qed.

Lemma mac_row_S address j :
  j < 10 →
  mac_row address (S j) =
  if (Z.of_nat j <? mac_len address)%Z
  then <[j := Some (nth j (mac address) 0%Z)]> (mac_row address j)
  else mac_row address j.
Proof.
  intros Hj. apply list_eq. intros c.
  assert ((if (Z.of_nat j <? mac_len address)%Z
           then <[j := Some (nth j (mac address) 0%Z)]> (mac_row address j)
           else mac_row address j) !! c =
          if decide (j = c ∧ (Z.of_nat j <? mac_len address)%Z = true)
          then Some (Some (nth j (mac address) 0%Z))
          else mac_row address j !! c) as ->.
  { destruct (Z.of_nat j <? mac_len address)%Z.
    - rewrite list_lookup_insert, mac_row_length.
      repeat case_decide; try done; tauto.
    - case_decide as H; [by destruct H|done]. }
  unfold mac_row. rewrite !list_lookup_fmap.
  destruct (decide (c < 10)) as [Hc|Hc].
  - rewrite lookup_seq_lt by done. cbn [fmap option_fmap option_map plus].
    case_decide as Hjc.
    + destruct Hjc as [<- ->].
      by destruct (Nat.ltb_spec j (S j)); [|lia].
    + destruct (Nat.ltb_spec c j), (Nat.ltb_spec c (S j)); try lia; try done.
      assert (c = j) as -> by lia. cbn.
      destruct (Z.of_nat j <? mac_len address)%Z; [|done].
      by destruct Hjc.
  - rewrite lookup_seq_ge by lia. cbn. case_decide as Hjc; [|done].
    destruct Hjc as [<- _]. lia.
Qed.

(** The inner loop on a row never assigned before. *)
Lemma copy_mac_row address (pre rest : list (list (option Z))) row :
  MAX_MAC_LEN ≤ 10 →
  length pre = row →
  for_loop 0 MAX_MAC_LEN (copy_mac address row)
    (pre ++ replicate 10 None :: rest) =
  Some (pre ++ mac_row address MAX_MAC_LEN :: rest).
Proof.
  intros Hfits Hrow.
  destruct (for_loop_inv
              (λ j m, m = pre ++ mac_row address j :: rest)
              (copy_mac address row) MAX_MAC_LEN 0
              (pre ++ replicate 10 None :: rest))
    as (m & Hloop & ->); [done | | done].
  intros j m Hj ->. rewrite mac_row_S by lia. unfold copy_mac.
  destruct (Z.of_nat j <? mac_len address)%Z; [|by eexists].
  unfold store2. rewrite list_lookup_middle by done.
  cbn [mbind option_bind].
  rewrite store_Some by (rewrite mac_row_length; lia).
  cbn [mbind option_bind]. eexists. split; [done|].
  by rewrite insert_app_r_alt, Hrow, Nat.sub_diag by lia.
Qed.

Lemma filled_initial get : filled get 0 initial_report_locals.
Proof.
  unfold filled. cbn. by rewrite Nat.sub_0_r.
Qed.

Lemma compact_body_filled get i r :
  MAX_MAC_LEN ≤ 10 →
  i < MAX_ADDRESS_CACHE →
  filled get i r →
  ∃ r', compact_body get i r = Some r' ∧ filled get (S i) r'.
Proof.
  intros Hfits Hi (Hk & Hids & Hnets & Hmacs & Hlen).
  pose proof (valid_entries_length get i) as Hle.
  unfold compact_body, filled. rewrite valid_entries_S.
  destruct (get i) as [entry|].
  2:{ exists r. by rewrite app_nil_r. }
  set (found := valid_entries get i) in *.
  replace (MAX_ADDRESS_CACHE - length found)
    with (S (MAX_ADDRESS_CACHE - length (found ++ [entry]))) in *
    by (rewrite length_app; cbn; lia).
  set (rest := MAX_ADDRESS_CACHE - length (found ++ [entry])) in *.
  cbn [replicate] in Hids, Hnets, Hmacs.
  rewrite Hids, Hnets, Hmacs.
  rewrite !store_at_end by (by rewrite length_fmap).
  cbn [mbind option_bind].
  rewrite copy_mac_row by (by rewrite ?length_fmap).
  cbn [mbind option_bind]. eexists. split; [done|]. cbn.
  rewrite last_snoc, !fmap_app, <- !app_assoc, length_app. cbn.
  repeat split; try done. lia.
Qed.

(** The arrays after the compaction. *)
Lemma compaction_filled get :
  MAX_MAC_LEN ≤ 10 →
  ∃ r, compaction get = Some r ∧ filled get MAX_ADDRESS_CACHE r.
Proof.
  intros Hfits. unfold compaction.
  apply (for_loop_inv (filled get)); [apply filled_initial|].
  intros i r Hi Hr. apply compact_body_filled; [done | lia | done].
Qed.

(** X9.  The compaction, cell by cell.  With [found] the entries at the
    indices for which [address_get_by_index] says yes, in the order of the
    indices: [k] ends as their number; [device_id_array] holds their device
    ids and [net_array] their network numbers, cut down to the 8 bits of a
    cell, at the positions below [k], and the cells from [k] on are never
    assigned; [mac_length] ends as the MAC length of the last entry found
    (0 when there is none), not as that of each entry. *)
Theorem compaction_fills_the_arrays_from_the_front
    (get : nat → option DeviceRecord) :
  MAX_MAC_LEN ≤ 10 →
  let found := omap get (seq 0 MAX_ADDRESS_CACHE) in
  ∃ r, compaction get = Some r ∧
       k r = length found ∧
       device_id_array r =
         ((λ e, Some (device_id e)) <$> found) ++
         replicate (MAX_ADDRESS_CACHE - length found) None ∧
       net_array r =
         ((λ e, Some (net (network_address e) `mod` 256)%Z) <$> found) ++
         replicate (MAX_ADDRESS_CACHE - length found) None ∧
       mac_length r =
         match last found with
         | Some e => mac_len (network_address e)
         | None => 0%Z
         end.
Proof.
  intros Hfits found.
  destruct (compaction_filled get Hfits)
    as (r & Hr & Hk & Hids & Hnets & _ & Hlen).
  by exists r.
Qed.

(** X10.  The rows of [mac_array] after the compaction.  The row of the
    n-th entry found holds, in its first cells, the octets of that entry's
    MAC address, as many as its [mac_len] says but not more than
    [MAX_MAC_LEN]; the remaining cells of the row's 10, and every row from
    [k] on, are never assigned. *)
Theorem compaction_copies_the_mac_addresses
    (get : nat → option DeviceRecord) :
  MAX_MAC_LEN ≤ 10 →
  let found := omap get (seq 0 MAX_ADDRESS_CACHE) in
  ∃ r, compaction get = Some r ∧
       length (mac_array r) = MAX_ADDRESS_CACHE ∧
       ∀ n c,
         c < 10 →
         n < MAX_ADDRESS_CACHE →
         mac_array r !! n ≫= (.!! c) =
         Some (match found !! n with
               | Some e =>
                   if (c <? MAX_MAC_LEN) &&
                      (Z.of_nat c <? mac_len (network_address e))%Z
                   then Some (nth c (mac (network_address e)) 0%Z)
                   else None
               | None => None
               end).
Proof.
  intros Hfits found.
  destruct (compaction_filled get Hfits)
    as (r & Hr & _ & _ & _ & Hmacs & _).
  pose proof (valid_entries_length get MAX_ADDRESS_CACHE) as Hle.
  fold (valid_entries get MAX_ADDRESS_CACHE) in found. fold found in Hmacs, Hle.
  exists r. split; [done|]. rewrite Hmacs. split.
  { rewrite length_app, length_fmap, length_replicate. lia. }
  intros n c Hc Hn.
  destruct (found !! n) as [e|] eqn:Hfound.
  - rewrite lookup_app_l by (rewrite length_fmap; by eapply lookup_lt_Some).
    rewrite list_lookup_fmap, Hfound.
    cbn [mbind option_bind fmap option_fmap option_map]. unfold mac_row.
    by rewrite list_lookup_fmap, lookup_seq_lt.
  - apply lookup_ge_None in Hfound.
    rewrite lookup_app_r by (by rewrite length_fmap).
    rewrite length_fmap, lookup_replicate_2 by lia.
    cbn [mbind option_bind]. by rewrite lookup_replicate_2.
Qed.

(** X11.  The registration with a BBMD is made only when
    [BACNET_BBMD_ADDRESS] is set and resolves to an address other than 0.
    The port is then never above 65535: a port read from
    [BACNET_BBMD_PORT] is used as it is when it is not above 65535 (also
    when it is negative), and replaced by 47808 when it is.  The time to
    live is never above 65535 either, but a greater one is cut down to
    65535, not replaced by the default of 60000. *)
Theorem bbmd_registration_is_bounded (v : bbmd_variables) a port seconds :
  bbmd_registration v = Some (a, port, seconds) →
  BACNET_BBMD_ADDRESS v = Some a ∧ a ≠ 0%Z ∧
  (port ≤ 65535)%Z ∧ (seconds ≤ 65535)%Z ∧
  (∀ p, BACNET_BBMD_PORT v = Some p →
        port = if (p <=? 65535)%Z then p else 47808%Z) ∧
  (∀ t, BACNET_BBMD_TIMETOLIVE v = Some t → seconds = Z.min t 65535).
Proof.
  assert (∀ p, ((if (p >? 65535) then 47808 else p) ≤ 65535 ∧
                (if (p >? 65535) then 47808 else p) =
                if (p <=? 65535) then p else 47808)%Z) as Hport.
  { intros p. rewrite Z.gtb_ltb.
    destruct (Z.ltb_spec 65535 p), (Z.leb_spec p 65535); lia. }
  assert (∀ t, ((if (t >? 65535) then 65535 else t) ≤ 65535 ∧
                (if (t >? 65535) then 65535 else t) = Z.min t 65535)%Z)
    as Hseconds.
  { intros t. rewrite Z.gtb_ltb. destruct (Z.ltb_spec 65535 t); lia. }
  unfold bbmd_registration, bbmd_port, bbmd_timetolive_seconds.
  destruct (BACNET_BBMD_ADDRESS v) as [bbmd_address|]; [|done].
  destruct (Z.eqb_spec bbmd_address 0); [done|].
  intros [= -> <- <-]. split; [done|]. split; [done|].
  split; [|split; [|split]].
  - destruct (BACNET_BBMD_PORT v) as [p|]; [apply Hport | lia].
  - destruct (BACNET_BBMD_TIMETOLIVE v) as [t|]; [apply Hseconds | lia].
  - intros p ->. apply Hport.
  - intros t ->. apply Hseconds.
Qed.

Lemma for_loop_keeps_indexed {St : Type} (P : nat → St → Prop)
    (body : nat → St → option St) n :
  ∀ first s s',
    (∀ i s s', first ≤ i < first + n → body i s = Some s' → P i s →
               P (S i) s') →
    for_loop first n body s = Some s' → P first s → P (first + n) s'.
Proof.
  induction n as [|n IH]; intros first s s' Hstep Hloop Hs.
  { cbn in Hloop. injection Hloop as <-. by rewrite Nat.add_0_r. }
  cbn in Hloop. destruct (body first s) as [s1|] eqn:Hbody; [|done].
  replace (first + S n) with (S first + n) by lia.
  eapply IH; [|exact Hloop|].
  - intros i s2 s3 Hi. apply Hstep. lia.
  - eapply Hstep; [lia | exact Hbody | exact Hs].
Qed.

Lemma for_loop_split {St : Type} (body : nat → St → option St) n m :
  ∀ first s,
    for_loop first (n + m) body s =
    for_loop first n body s ≫= for_loop (first + n) m body.
Proof.
  induction n as [|n IH]; intros first s.
  { cbn. by rewrite Nat.add_0_r. }
  cbn. destruct (body first s) as [s1|]; [|done].
  rewrite IH. by replace (S first + n) with (first + S n) by lia.
Qed.

Lemma copy_mac_keeps_shape address row j m m' :
  copy_mac address row j m = Some m' →
  mac_shape MAX_ADDRESS_CACHE m → mac_shape MAX_ADDRESS_CACHE m'.
Proof.
  unfold copy_mac, store2, store. intros Hcopy [Hrows Hcells].
  destruct (_ <? _)%Z; [|by injection Hcopy as <-].
  destruct (m !! row) as [cells|] eqn:Hrow; [|done].
  cbn [mbind option_bind] in Hcopy.
  destruct (j <? length cells); [|done]. cbn [mbind option_bind] in Hcopy.
  injection Hcopy as <-. split; [by rewrite length_insert|].
  apply Forall_insert; [done|]. rewrite length_insert.
  by eapply (Forall_lookup_1 _ _ _ _ Hcells Hrow).
Qed.

Lemma compact_body_keeps_shape get i r r' :
  compact_body get i r = Some r' → in_shape i r → in_shape (S i) r'.
Proof.
  unfold compact_body, store. intros Hbody (Hk & Hids & Hnets & Hmacs).
  destruct (get i) as [entry|].
  2:{ injection Hbody as <-. split; [lia | done]. }
  destruct (k r <? length (device_id_array r)) eqn:Hin; [|done].
  destruct (k r <? length (net_array r)); [|done].
  cbn [mbind option_bind] in Hbody.
  destruct (for_loop 0 MAX_MAC_LEN _ _) as [macs|] eqn:Hloop; [|done].
  cbn [mbind option_bind] in Hbody.
  injection Hbody as <-. unfold in_shape.
  cbn [k device_id_array net_array mac_array]. rewrite !length_insert.
  apply Nat.ltb_lt in Hin.
  split; [lia|]. split; [done|]. split; [done|].
  eapply (for_loop_keeps (mac_shape MAX_ADDRESS_CACHE)); [|exact Hloop|done].
  intros j m m'. apply copy_mac_keeps_shape.
Qed.

(** X12.  The second index of [mac_array] is bounded by the 10 of its
    declaration, while the copying loop runs up to [MAX_MAC_LEN].  In a
    build with [MAX_MAC_LEN] above 10, an entry of the cache whose MAC
    address is longer than 10 octets makes the report store outside
    [mac_array]: the report has no defined behaviour, whatever else the
    cache holds. *)
Theorem a_long_mac_overruns_mac_array
    (get : nat → option DeviceRecord) (g : globals) i entry :
  10 < MAX_MAC_LEN →
  i < MAX_ADDRESS_CACHE →
  get i = Some entry →
  (10 < mac_len (network_address entry))%Z →
  report get g = None.
Proof.
  intros Hwide Hi Hentry Hlong.
  assert (compaction get = None) as Hcompaction; [|unfold report; by rewrite Hcompaction].
  unfold compaction.
  replace MAX_ADDRESS_CACHE with (i + S (MAX_ADDRESS_CACHE - S i)) at 1 by lia.
  rewrite for_loop_split.
  destruct (for_loop 0 i (compact_body get) initial_report_locals)
    as [r|] eqn:Hprefix; [|done].
  assert (in_shape i r) as (Hk & Hids & Hnets & Hmacs).
  { apply (for_loop_keeps_indexed in_shape (compact_body get) i 0
             initial_report_locals r); [|done|].
    - intros j r1 r2 _. apply compact_body_keeps_shape.
    - unfold in_shape, mac_shape. cbn. rewrite !length_replicate.
      repeat split; try done. by apply Forall_replicate. }
  cbn [mbind option_bind for_loop plus].
  assert (compact_body get i r = None) as ->; [|done].
  unfold compact_body. rewrite Hentry.
  rewrite !store_Some by lia. cbn [mbind option_bind].
  assert (for_loop 0 MAX_MAC_LEN (copy_mac (network_address entry) (k r))
            (mac_array r) = None) as ->; [|done].
  replace MAX_MAC_LEN with (10 + S (MAX_MAC_LEN - 11)) by lia.
  rewrite for_loop_split.
  destruct (for_loop 0 10 _ _) as [m|] eqn:Hcopied; [|done].
  assert (mac_shape MAX_ADDRESS_CACHE m) as [Hrows Hcells].
  { eapply (for_loop_keeps (mac_shape MAX_ADDRESS_CACHE)); [|exact Hcopied|done].
    intros j m1 m2. apply copy_mac_keeps_shape. }
  cbn [mbind option_bind for_loop plus]. unfold copy_mac at 1.
  destruct (Z.ltb_spec (Z.of_nat 10) (mac_len (network_address entry)));
    [|lia].
  unfold store2.
  destruct (lookup_lt_is_Some_2 m (k r)) as [cells Hrow]; [lia|].
  rewrite Hrow. cbn [mbind option_bind]. unfold store.
  rewrite (Forall_lookup_1 _ _ _ _ Hcells Hrow). done.
Qed.

(** The trace of a session that a fatal event ends. *)
Lemma main_aborted_trace e pre x post :
  MAX_MAC_LEN ≤ 10 →
  datalink_init_ok e = true →
  ticks e = pre ++ x :: post →
  Forall (λ y, quiet (configured_timeout e ÷ 1000) (start_seconds e) y = true)
    pre →
  tick_fatal x = true →
  ∃ tr ids,
    main e =
      Some (mkResult (Some 0%Z) (Some Aborted)
              (tr ++ handler_lines x ++ map Stdout_device_id ids)) ∧
    fatal_lines tr = 0.
Proof.
  intros Hfits Hinit Hticks Hquiet Hfatal.
  set (g0 := emit (Call_Send_WhoIs Target_Object_Instance_Min
                     Target_Object_Instance_Max)
               (Init_DataLink e (address_init (initial_globals e))).1).
  assert (Error_Detected g0 = false) as He0.
  { destruct (Init_DataLink_spec e (address_init (initial_globals e)))
      as (g & Hg & _ & He & _); [done|].
    unfold g0. rewrite Hg. cbn. by rewrite He. }
  assert (trace g0 = start_up e ++ [Call_Send_WhoIs 0 4194303]) as Htr0.
  { unfold g0. cbn [emit trace]. by rewrite Init_DataLink_trace. }
  destruct (main_loop_quiet (configured_timeout e ÷ 1000) (start_seconds e)
              pre g0 (mkLocals 0 (start_seconds e)))
    as (g1 & l1 & Hrun & He1 & _); [done | cbn; lia | done |].
  pose proof (Hrun []) as Hpre. rewrite app_nil_r in Hpre. cbn in Hpre.
  destruct (main_loop_effects _ _ _ _ _ _ _ Hpre He0)
    as (extra & Htr1 & _ & Hfl1 & _).
  set (g2 := handled x (emit (Call_datalink_receive timeout) g1)).
  assert (main_loop registered (configured_timeout e ÷ 1000) (ticks e) g0
            (mkLocals 0 (start_seconds e)) = (g2, l1, Aborted)) as Hloop.
  { rewrite Hticks, Hrun. cbn [main_loop]. unfold loop_body. cbv zeta.
    change (match rx x with
            | Some ev =>
                npdu_handler registered ev
                  (emit (Call_datalink_receive timeout) g1)
            | None => emit (Call_datalink_receive timeout) g1
            end) with g2.
    assert (Error_Detected g2 = true) as ->; [|reflexivity].
    unfold g2. rewrite handled_Error_Detected, Hfatal. apply orb_true_r. }
  pose proof (main_unfolded e Hfits Hinit _ _ _ Hloop) as Hmain.
  assert (trace g2 =
          (start_up e ++ Call_Send_WhoIs 0 4194303 :: extra ++
           [Call_datalink_receive timeout]) ++ handler_lines x) as Htr2.
  { unfold g2. rewrite handled_trace. cbn [emit trace].
    rewrite Htr1, Htr0. f_equal. rewrite <- !app_assoc. reflexivity. }
  rewrite Htr2, <- app_assoc in Hmain.
  eexists _, _. split; [exact Hmain|].
  destruct (start_up_spec e) as [Hstart _].
  rewrite fatal_lines_app, Hstart.
  change (fatal_lines (Call_Send_WhoIs 0 4194303 :: ?tr))
    with (fatal_lines tr).
  rewrite fatal_lines_app, Hfl1. by case_decide.
Qed.

(** X13.  When a session is ended by an Abort, the one line "BACnet Abort"
    that it writes carries the reason of that Abort, and likewise for a
    Reject.  The line is the last thing before the report: the device-id
    lines follow it at once. *)
Theorem the_fatal_line_names_the_reason e pre x post :
  MAX_MAC_LEN ≤ 10 →
  datalink_init_ok e = true →
  ticks e = pre ++ x :: post →
  Forall (λ y, quiet (configured_timeout e ÷ 1000) (start_seconds e) y = true)
    pre →
  tick_fatal x = true →
  ∃ r tr ids,
    main e = Some r ∧
    session r = Some Aborted ∧
    fatal_lines tr = 0 ∧
    (∀ src invoke_id abort_reason server,
       rx x = Some (Abort src invoke_id abort_reason server) →
       output r =
         tr ++ Stderr_BACnet_Abort abort_reason :: map Stdout_device_id ids) ∧
    (∀ src invoke_id reject_reason,
       rx x = Some (Reject src invoke_id reject_reason) →
       output r =
         tr ++ Stderr_BACnet_Reject reject_reason :: map Stdout_device_id ids).
Proof.
  intros Hfits Hinit Hticks Hquiet Hfatal.
  destruct (main_aborted_trace e pre x post Hfits Hinit Hticks Hquiet Hfatal)
    as (tr & ids & Hmain & Hlines).
  eexists _, tr, ids. split; [exact Hmain|]. split; [done|]. split; [done|].
  cbn [output]. unfold handler_lines.
  split; intros * ->; done.
Qed.

End Globalwi.

(** ** Concrete runs

    A build with an address cache of 255 entries and MAC addresses of up to
    7 octets over BACnet/IP without BBMD support. *)

(** Whatever the capacity, one device more than fits is not recorded. *)
Lemma cache_saturates (MAX_ADDRESS_CACHE : nat) (e : environment) :
  let xs := map (λ n, i_am 100 (Z.of_nat n)) (seq 0 (S MAX_ADDRESS_CACHE)) in
  length (distinct (identified xs)) = S MAX_ADDRESS_CACHE ∧
  size (Address_Cache (dispatch_all MAX_ADDRESS_CACHE xs (initial_globals e)))
  = MAX_ADDRESS_CACHE.
Proof.
  intros xs.
  assert (identified xs = Z.of_nat <$> seq 0 (S MAX_ADDRESS_CACHE)) as Hids.
  { unfold xs. induction (seq 0 (S MAX_ADDRESS_CACHE)) as [|n ns IH]; [done|].
    cbn [map]. rewrite identified_cons. cbn. by rewrite IH. }
  assert (distinct (identified xs) = identified xs) as Hdistinct.
  { apply first_occurrences_fresh; [|by intros x _ ?%elem_of_nil].
    rewrite Hids. apply NoDup_fmap_2; [apply _ | apply NoDup_seq]. }
  assert (length (identified xs) = S MAX_ADDRESS_CACHE) as Hlen
    by (by rewrite Hids, length_fmap, length_seq).
  split; [by rewrite Hdistinct|].
  unfold size. rewrite <- (length_map device_id).
  fold (enumerate (Address_Cache
                     (dispatch_all MAX_ADDRESS_CACHE xs (initial_globals e)))).
  rewrite enumerate_dispatch_all, Hdistinct, length_take. lia.
Qed.

(** C1, counterexample.  256 distinct devices identify themselves to a
    build whose cache has 255 entries: the cache ends with 255 records, not
    256, and device 255 is missing from the report. *)
Lemma crowd_overflows_the_cache :
  ∃ r, main 255 7 BACDL_BIP false (session_of crowd) = Some r ∧
       session r = Some TimedOut ∧
       length (distinct (identified crowd)) = 256 ∧
       size (Address_Cache
               (dispatch_all 255 crowd (initial_globals (session_of crowd))))
       = 255 ∧
       printed (output r) = map Z.of_nat (seq 0 255).
Proof.
  eexists. split; [vm_compute; reflexivity|].
  repeat split; vm_compute; reflexivity.
Qed.

Lemma report_lists_first_occurrences_witness :
  ∃ r, main 255 7 BACDL_BIP false
         (session_of [i_am 100 7; i_am 100 3; i_am 101 7; idle 101;
                      i_am 102 5; i_am 102 3; idle 104]) = Some r ∧
       printed (output r) = [7; 3; 5]%Z.
Proof.
  destruct (report_lists_first_occurrences 255 7 BACDL_BIP false
              (session_of [i_am 100 7; i_am 100 3; i_am 101 7; idle 101;
                           i_am 102 5; i_am 102 3; idle 104])
              [i_am 100 7; i_am 100 3; i_am 101 7; idle 101;
               i_am 102 5; i_am 102 3] (idle 104) [])
    as (_ & _ & r & Hmain & _ & Hprinted & _);
    [lia | reflexivity | reflexivity
     | repeat (constructor; [reflexivity|]); constructor | reflexivity |].
  exists r. split; [exact Hmain | exact Hprinted].
Defined.

Lemma abort_preserves_partial_results_witness :
  ∃ r, main 255 7 BACDL_BIP false
         (session_of [i_am 100 10; i_am 100 20; abort_at 101; i_am 101 30])
       = Some r ∧
       session r = Some Aborted ∧
       printed (output r) = [10; 20]%Z.
Proof.
  destruct (abort_preserves_partial_results 255 7 BACDL_BIP false
              (session_of [i_am 100 10; i_am 100 20; abort_at 101; i_am 101 30])
              [i_am 100 10; i_am 100 20] (abort_at 101) [i_am 101 30])
    as (r & Hmain & Hsession & _ & _ & Hscenario);
    [lia | reflexivity | reflexivity
     | repeat (constructor; [reflexivity|]); constructor | reflexivity |].
  exists r. split; [exact Hmain|]. split; [exact Hsession|].
  apply Hscenario; [lia | reflexivity].
Defined.

Lemma fatal_error_is_final_witness :
  ∃ g' l',
    main_loop BACDL_BIP false (registered 255) 3
      ([i_am 100 10; idle 100] ++ abort_at 100 :: [i_am 100 30; idle 105])
      fresh (mkLocals 0 100) = (g', l', Aborted) ∧
    Error_Detected g' = true ∧
    enumerate (Address_Cache g') = [10%Z].
Proof.
  edestruct (fatal_error_is_final 255 BACDL_BIP false 3
               [i_am 100 10; idle 100] (abort_at 100) fresh (mkLocals 0 100))
    as ((g' & Hfinal & Hflag & Hcache & _) & _);
    [vm_compute; reflexivity | reflexivity |].
  exists g'. eexists. split; [apply Hfinal|]. split; [exact Hflag|].
  rewrite Hcache. reflexivity.
Defined.

Lemma unrecognized_service_is_tolerated_witness :
  ∃ r, main 255 7 BACDL_BIP false
         (session_of [noise_at 100; idle 101; noise_at 102; idle 104])
       = Some r ∧
       session r = Some TimedOut ∧
       printed (output r) = [].
Proof.
  destruct (unrecognized_service_is_tolerated 255 7 BACDL_BIP false
              (session_of [noise_at 100; idle 101; noise_at 102; idle 104]))
    as (_ & r & Hmain & _ & Hprinted & Htimeout);
    [lia | reflexivity
     | repeat (constructor; [first [by left | by right]|]); constructor |].
  destruct (Htimeout [noise_at 100; idle 101; noise_at 102] (idle 104) [])
    as (Hsession & _);
    [reflexivity
     | repeat (constructor; [evaluate|]); constructor | evaluate |].
  exists r. split; [exact Hmain|]. split; [exact Hsession | exact Hprinted].
Defined.

(** C5, counterexample.  With [BACNET_APDU_TIMEOUT=500] the budget is 0
    seconds.  A receive waits 1 ms, so many idle polls fit into one second:
    three of them within the second in which the session started leave the
    loop running; it stops at the fourth, the first to see the next
    second. *)
Lemma three_idle_polls_do_not_end_the_session :
  (configured_timeout BACDL_BIP (short_session_of []) ÷ 1000 = 0)%Z ∧
  main 255 7 BACDL_BIP false
    (short_session_of [idle 100; idle 100; idle 100]) =
    Some (mkResult None (Some Running)
            [Stderr_APDU_TIMEOUT "500"; Call_Send_WhoIs 0 4194303;
             Call_datalink_receive 1; Call_datalink_receive 1;
             Call_datalink_receive 1]) ∧
  main 255 7 BACDL_BIP false
    (short_session_of [idle 100; idle 100; idle 100; idle 101]) =
    Some (mkResult (Some 0%Z) (Some TimedOut)
            [Stderr_APDU_TIMEOUT "500"; Call_Send_WhoIs 0 4194303;
             Call_datalink_receive 1; Call_datalink_receive 1;
             Call_datalink_receive 1; Call_datalink_receive 1]).
Proof. repeat split; vm_compute; reflexivity. Qed.

Lemma zero_budget_ends_with_the_starting_second_witness :
  ∃ r, main 255 7 BACDL_BIP false
         (short_session_of [idle 100; idle 100; idle 100; idle 101]) = Some r ∧
       session r = Some TimedOut ∧
       receives (output r) = 4.
Proof.
  destruct (zero_budget_ends_with_the_starting_second 255 7 BACDL_BIP false
              (short_session_of [idle 100; idle 100; idle 100; idle 101])
              [idle 100; idle 100; idle 100] (idle 101) [])
    as (r & Hmain & Hsession & _ & _ & Hreceives);
    [lia | reflexivity | reflexivity | reflexivity
     | repeat (constructor; [split; [reflexivity | evaluate]|]); constructor
     | reflexivity | evaluate |].
  exists r. split; [exact Hmain|]. split; [exact Hsession | exact Hreceives].
Defined.

Lemma time_is_accounted_in_whole_seconds_witness :
  ∃ g' l',
    main_loop BACDL_BIP false (registered 255) 0
      (map ms_tick
         ([(100700, None)] ++
          (101000, Some UnrecognizedService) :: [(101500, None)])%Z)
      fresh (mkLocals 0 (seconds_of 100200)) = (g', l', TimedOut) ∧
    total_seconds l' = 1%Z ∧
    (1000 * 0 < 101000 - 100200)%Z.
Proof.
  destruct (time_is_accounted_in_whole_seconds 255 BACDL_BIP false 0 100200
              [(100700, None)]%Z (101000, Some UnrecognizedService)%Z
              [(101500, None)]%Z fresh)
    as (_ & _ & g' & l' & Hrun & _ & Htotal & _ & Hms);
    [reflexivity
     | repeat (constructor; [reflexivity|]); constructor
     | repeat (constructor; [evaluate|]); constructor
     | evaluate |].
  exists g', l'. split; [exact Hrun|]. split; [exact Htotal | exact Hms].
Defined.

Lemma one_broadcast_before_the_loop_witness :
  ∃ r, main 255 7 BACDL_BIP false
         (session_of [i_am 100 10; idle 101; noise_at 102; idle 104])
       = Some r ∧
       broadcasts (output r) = 1.
Proof.
  destruct (one_broadcast_before_the_loop 255 7 BACDL_BIP false
              (session_of [i_am 100 10; idle 101; noise_at 102; idle 104]))
    as (r & before & after & Hmain & _ & _ & _ & _ & Hone & _);
    [lia | reflexivity |].
  exists r. split; [exact Hmain | exact Hone].
Defined.

Lemma exit_status_convention_witness :
  ∃ r, main 255 7 BACDL_BIP false no_datalink = Some r ∧
       exit_status r = Some 1%Z ∧ session r = None.
Proof.
  destruct (exit_status_convention 255 7 BACDL_BIP false no_datalink)
    as (r & Hmain & Hfailed & _); [lia|].
  destruct (Hfailed eq_refl) as (Hstatus & Hsession & _).
  exists r. split; [exact Hmain|]. split; [exact Hstatus | exact Hsession].
Defined.

Lemma report_within_bounds_witness :
  ∃ g' ids,
    report 255 7
      (address_get_by_index 255
         [mkDeviceRecord 10 1476 mac6; mkDeviceRecord 20 480 mac6]) fresh
    = Some g' ∧
    trace g' = trace fresh ++ map Stdout_device_id ids ∧
    length ids ≤ 255.
Proof.
  destruct (report_within_bounds 255 7
              (address_get_by_index 255
                 [mkDeviceRecord 10 1476 mac6; mkDeviceRecord 20 480 mac6])
              fresh)
    as (_ & _ & g' & ids & Hreport & Htrace & Hlength); [lia|].
  exists g', ids. split; [exact Hreport|]. split; [exact Htrace | exact Hlength].
Defined.

Lemma budget_is_apdu_timeout_over_1000_witness :
  ∃ r, main 255 7 BACDL_BIP false
         (short_session_of [idle 100; i_am 100 10; idle 101; idle 102])
       = Some r ∧
       session r = Some TimedOut ∧
       receives (output r) = 3.
Proof.
  destruct (budget_is_apdu_timeout_over_1000 255 7 BACDL_BIP false
              (short_session_of [idle 100; i_am 100 10; idle 101; idle 102])
              [idle 100; i_am 100 10] (idle 101) [idle 102])
    as (_ & _ & Hsmall);
    [lia | reflexivity | reflexivity
     | repeat (constructor; [reflexivity|]); constructor |].
  destruct Hsmall as (_ & Hstops); [split; evaluate|].
  apply Hstops; [repeat (constructor; [evaluate|]); constructor | evaluate].
Defined.

(** ** Concrete runs for the further properties *)

Lemma session_ends_as_by_an_absolute_deadline_witness :
  ∃ r, main 255 7 BACDL_BIP false
         (session_of [i_am 100 10; idle 103; abort_at 104; idle 105]) = Some r ∧
       session r = Some Aborted.
Proof.
  destruct (session_ends_as_by_an_absolute_deadline 255 7 BACDL_BIP false
              (session_of [i_am 100 10; idle 103; abort_at 104; idle 105]))
    as (r & Hmain & Hsession & _); [lia | reflexivity |].
  exists r. split; [exact Hmain | exact Hsession].
Defined.

Lemma ticks_after_the_end_are_ignored_witness :
  ∃ r, main 255 7 BACDL_BIP false
         (session_of ([i_am 100 10; idle 104] ++ [i_am 104 20; abort_at 105]))
       = Some r ∧
       session r = Some TimedOut ∧ printed (output r) = [10%Z].
Proof.
  eexists. split.
  - eapply (ticks_after_the_end_are_ignored 255 7 BACDL_BIP false
              (session_of [i_am 100 10; idle 104]) _
              [i_am 104 20; abort_at 105]);
      [vm_compute; reflexivity | discriminate].
  - split; reflexivity.
Defined.

Lemma running_total_is_the_distance_from_the_start_witness :
  ∃ g' l',
    main_loop BACDL_BIP false (registered 255) 5
      ([idle 103] ++ [idle 101]) fresh (mkLocals 0 100) = (g', l', Running) ∧
    total_seconds l' = 1%Z.
Proof.
  edestruct (running_total_is_the_distance_from_the_start 255 BACDL_BIP false
               5 100 [idle 103] (idle 101) fresh) as [Htotal _];
    [vm_compute; reflexivity|].
  eexists _, _. split; [vm_compute; reflexivity | exact Htotal].
Defined.

Lemma trace_is_start_up_broadcast_polls_report_witness :
  ∃ r polls ids,
    main 255 7 BACDL_BIP true
      (short_session_of [i_am 100 10; idle 100; idle 101]) = Some r ∧
    output r =
      Stderr_APDU_TIMEOUT "500" :: Call_Send_WhoIs 0 4194303 :: polls ++
      map Stdout_device_id ids.
Proof.
  destruct (trace_is_start_up_broadcast_polls_report 255 7 BACDL_BIP true
              (short_session_of [i_am 100 10; idle 100; idle 101]))
    as (r & Hmain & polls & ids & Houtput & _); [lia|].
  exists r, polls, ids. split; [exact Hmain | exact Houtput].
Defined.

Lemma at_most_one_fatal_line_witness :
  ∃ r, main 255 7 BACDL_BIP false
         (session_of [i_am 100 10; abort_at 101; abort_at 101]) = Some r ∧
       fatal_lines (output r) = 1.
Proof.
  destruct (at_most_one_fatal_line 255 7 BACDL_BIP false
              (session_of [i_am 100 10; abort_at 101; abort_at 101]))
    as (r & Hmain & Hlines); [lia | reflexivity |].
  exists r. split; [exact Hmain|].
  rewrite Hlines.
  assert (session r = Some Aborted) as ->; [|reflexivity].
  vm_compute in Hmain. by injection Hmain as <-.
Defined.

Lemma maintenance_timer_is_given_the_total_witness :
  ∃ g' l' extra,
    main_loop BACDL_BIP true (registered 255) 3
      [idle 100; idle 102; idle 103; idle 104] fresh (mkLocals 0 100)
    = (g', l', TimedOut) ∧
    trace g' = trace fresh ++ extra ∧
    maintenance_seconds extra = 4%Z.
Proof.
  edestruct (maintenance_timer_is_given_the_total 255 BACDL_BIP true 3 100
               [idle 100; idle 102; idle 103; idle 104] fresh)
    as (extra & Htrace & Hsum & _); [vm_compute; reflexivity | reflexivity |].
  eexists _, _, extra.
  split; [vm_compute; reflexivity|]. split; [exact Htrace | exact Hsum].
Defined.

Lemma report_prints_the_valid_slots_in_order_witness :
  ∃ g', report 255 7 sparse_cache fresh = Some g' ∧
        printed (trace g') = [10; 20]%Z.
Proof.
  destruct (report_prints_the_valid_slots_in_order 255 7 sparse_cache fresh)
    as (g' & Hreport & Htrace & _); [lia|].
  exists g'. split; [exact Hreport|]. rewrite Htrace. reflexivity.
Defined.

Lemma compaction_fills_the_arrays_from_the_front_witness :
  ∃ r, compaction 255 7 sparse_cache = Some r ∧
       k r = 2 ∧
       take 3 (device_id_array r) = [Some 10; Some 20; None]%Z ∧
       take 3 (net_array r) = [Some 0; Some 44; None]%Z ∧
       mac_length r = 3%Z.
Proof.
  destruct (compaction_fills_the_arrays_from_the_front 255 7 sparse_cache)
    as (r & Hr & Hk & Hids & Hnets & Hlength); [lia|].
  exists r. split; [exact Hr|]. split; [exact Hk|].
  rewrite Hids, Hnets. repeat split; try reflexivity. exact Hlength.
Defined.

Lemma compaction_copies_the_mac_addresses_witness :
  ∃ r, compaction 255 7 sparse_cache = Some r ∧
       mac_array r !! 1 ≫= (.!! 2) = Some (Some 12%Z) ∧
       mac_array r !! 1 ≫= (.!! 3) = Some None ∧
       mac_array r !! 2 ≫= (.!! 0) = Some None.
Proof.
  destruct (compaction_copies_the_mac_addresses 255 7 sparse_cache)
    as (r & Hr & _ & Hcells); [lia|].
  exists r. split; [exact Hr|].
  split; [|split]; rewrite Hcells by lia; reflexivity.
Defined.

Lemma bbmd_registration_is_bounded_witness :
  bbmd_registration oversized_bbmd = Some (3232235777, 47808, 65535)%Z ∧
  (47808 ≤ 65535)%Z ∧ (65535 ≤ 65535)%Z.
Proof.
  split; [reflexivity|].
  destruct (bbmd_registration_is_bounded oversized_bbmd
              3232235777 47808 65535 eq_refl)
    as (_ & _ & Hport & Hseconds & _).
  split; [exact Hport | exact Hseconds].
Defined.

Lemma a_long_mac_overruns_mac_array_witness :
  report 255 12 one_long_mac fresh = None.
Proof.
  apply (a_long_mac_overruns_mac_array 255 12 one_long_mac fresh 2
           (mkDeviceRecord 30 480 mac11)); [lia | lia | reflexivity | evaluate].
Defined.

Lemma the_fatal_line_names_the_reason_witness :
  ∃ r tr ids,
    main 255 7 BACDL_BIP false
      (session_of [i_am 100 10; i_am 100 20; abort_at 101; i_am 101 30])
    = Some r ∧
    output r = tr ++ Stderr_BACnet_Abort 4 :: map Stdout_device_id ids.
Proof.
  destruct (the_fatal_line_names_the_reason 255 7 BACDL_BIP false
              (session_of [i_am 100 10; i_am 100 20; abort_at 101; i_am 101 30])
              [i_am 100 10; i_am 100 20] (abort_at 101) [i_am 101 30])
    as (r & tr & ids & Hmain & _ & _ & Habort & _);
    [lia | reflexivity | reflexivity
     | repeat (constructor; [reflexivity|]); constructor | reflexivity |].
  exists r, tr, ids. split; [exact Hmain|].
  exact (Habort mac6 1%Z 4%Z false eq_refl).
Defined.
